(** * auto-veto: event classification of the MJD veto system

    A shallow embedding of the helper functions of [auto-veto.cc]
    ([CheckEventErrors], [InterpTime], [PanelMap], [FindPanelThreshold]) and
    of the cuts and the run-level checks of [ProcessVetoData], followed by the
    properties proved about them.

    C++ [int] and [long] values are integers of [Z]: the arithmetic below
    (differences of event counters and of entry indices, counts up to 32)
    stays inside the range of these types for the values of a run, so no
    wrap-around is written.  [double] is the binary64 type of [PrimFloat].
    [vector<int>], [vector<double>] and the arrays of an event are lists read
    with [!!!] and written with [<[i:=x]>]; reading outside a vector is
    undefined in C++, here it answers the default value of the element
    type, and writing outside it changes nothing. *)

From Stdlib Require Import ZArith Bool Lia.
From Stdlib Require Import Floats.
From stdpp Require Import base list.

Local Open Scope Z_scope.

(** ** Doubles *)

Module Double.

(** [(double) z] for an integer that fits 63 bits. *)
Definition of_Z (z : Z) : float :=
  if z <? 0 then PrimFloat.opp (PrimFloat.of_uint63 (Uint63.of_Z (- z)))
  else PrimFloat.of_uint63 (Uint63.of_Z z).

Definition INT_MIN : Z := -2147483648.
Definition INT_MAX : Z := 2147483647.

(** [(int) x]: the fractional part is discarded; where the result does not
    fit an [int] (or [x] is not finite) the x86 conversion answers
    [INT_MIN]. *)
Definition to_int (x : float) : Z :=
  match Prim2SF x with
  | S754_zero _ => 0
  | S754_finite s m e =>
      let a := if 0 <=? e then Z.pos m * 2 ^ e else Z.pos m / 2 ^ (- e) in
      let v := if s then - a else a in
      if (INT_MIN <=? v) && (v <=? INT_MAX) then v else INT_MIN
  | _ => INT_MIN
  end.

(** [x > y], [x != y] and [fabs] of C++. *)
Definition gt (x y : float) : bool := PrimFloat.ltb y x.
Definition ne (x y : float) : bool := negb (PrimFloat.eqb x y).
Definition fabs (x : float) : float := PrimFloat.abs x.

End Double.

(** Reading a [vector<double>] by index needs a default value. *)
#[global] Instance float_inhabited : Inhabited float := populate 0%float.

(** ** The event record *)

(** Modelled from the spec: the class [MJVetoEvent] is declared in
    [MJVetoEvent.hh], which is not among the sources.  The record keeps the
    fields the functions below read through its getters: the run number, the
    entry index, the 18 structural flags, the bad-scaler flag, the scaler and
    SBC clocks (seconds, [double]), the three event counters, the 32 channel
    amplitudes, the software thresholds and the multiplicity. *)
Record MJVetoEvent : Type := mkVetoEvent {
  fRun : Z;
  fEntry : Z;
  fError : list bool;
  fBadScaler : bool;
  fTimeSec : float;
  fTimeSBC : float;
  fSEC : Z;
  fQEC : Z;
  fQEC2 : Z;
  fQDC : list Z;
  fSWThresh : list Z;
  fMultip : Z
}.

Definition GetRun (v : MJVetoEvent) : Z := fRun v.
Definition GetEntry (v : MJVetoEvent) : Z := fEntry v.
Definition GetError (v : MJVetoEvent) (i : nat) : bool := fError v !!! i.
Definition GetBadScaler (v : MJVetoEvent) : bool := fBadScaler v.
Definition GetTimeSec (v : MJVetoEvent) : float := fTimeSec v.
Definition GetTimeSBC (v : MJVetoEvent) : float := fTimeSBC v.
Definition GetSEC (v : MJVetoEvent) : Z := fSEC v.
Definition GetQEC (v : MJVetoEvent) : Z := fQEC v.
Definition GetQEC2 (v : MJVetoEvent) : Z := fQEC2 v.
Definition GetQDC (v : MJVetoEvent) (q : nat) : Z := fQDC v !!! q.
Definition GetSWThresh (v : MJVetoEvent) (k : nat) : Z := fSWThresh v !!! k.
Definition GetMultip (v : MJVetoEvent) : Z := fMultip v.

Definition SetSWThresh (v : MJVetoEvent) (thresh : list Z) : MJVetoEvent :=
  mkVetoEvent (fRun v) (fEntry v) (fError v) (fBadScaler v) (fTimeSec v)
              (fTimeSBC v) (fSEC v) (fQEC v) (fQEC2 v) (fQDC v) thresh
              (fMultip v).

(** A default-constructed event: no entry yet ([-1]), everything else
    cleared. *)
Definition MJVetoEvent_default : MJVetoEvent :=
  mkVetoEvent 0 (-1) (replicate 18 false) false 0%float 0%float 0 0 0
              (replicate 32 0) (replicate 32 0) 0.

(** ** PanelMap *)

(** Channel to plane; [runNum] is not looked at. *)
Definition PanelMap (i : Z) (runNum : Z) : Z :=
  if i =? 0 then 0
  else if i =? 1 then 0
  else if i =? 2 then 0
  else if i =? 3 then 0
  else if i =? 4 then 0
  else if i =? 5 then 0
  else if i =? 6 then 1
  else if i =? 7 then 1
  else if i =? 8 then 1
  else if i =? 9 then 1
  else if i =? 10 then 1
  else if i =? 11 then 1
  else if i =? 17 then 3
  else if i =? 18 then 3
  else if i =? 20 then 2
  else if i =? 21 then 2
  else if i =? 15 then 5
  else if i =? 16 then 5
  else if i =? 19 then 4
  else if i =? 23 then 4
  else if i =? 24 then 6
  else if i =? 25 then 7
  else if i =? 26 then 6
  else if i =? 27 then 7
  else if i =? 12 then 8
  else if i =? 13 then 8
  else if i =? 14 then 9
  else if i =? 22 then 9
  else if i =? 28 then 10
  else if i =? 29 then 11
  else if i =? 30 then 10
  else if i =? 31 then 11
  else -1.

(** ** CheckEventErrors *)

(** [for (int i=0; i < 18; i++) EventErrors[i] = veto.GetError(i);] *)
Definition copy_errors (veto : MJVetoEvent) (EventErrors : list Z) : list Z :=
  foldl (fun v i => <[i := Z.b2z (GetError veto i)]> v) EventErrors (seq 0 18).

(** The slots named in the first loop over the error vector. *)
Definition skip_structural (q : nat) : bool :=
  (q =? 1)%nat || (q =? 2)%nat || (q =? 3)%nat || (q =? 5)%nat ||
  (q =? 6)%nat || (q =? 9)%nat || (q =? 13)%nat || (q =? 14)%nat.

(** The slots named in the second loop. *)
Definition skip_synch (q : nat) : bool :=
  (q =? 18)%nat || (q =? 19)%nat || (q =? 20)%nat || (q =? 21)%nat ||
  (q =? 22)%nat || (q =? 23)%nat || (q =? 24)%nat.

(** [for (q ...) if (EventErrors[q]==1 && (q==..||..)) skip = true;] over the
    indices [qs]. *)
Definition check_skip (named : nat -> bool) (EventErrors : list Z)
    (qs : list nat) (skip : bool) : bool :=
  foldl (fun s q => if (EventErrors !!! q =? 1) && named q then true else s)
        skip qs.

(** [if (c) EventErrors[q] = true;] *)
Definition set_if (c : bool) (q : nat) (EventErrors : list Z) : list Z :=
  if c then <[q := 1]> EventErrors else EventErrors.

(** The body of the five-argument [CheckEventErrors]; the last argument is
    the vector the caller passes by reference, the second component of the
    result is its content on return. *)
Definition CheckEventErrors (veto prev first : MJVetoEvent)
    (prevGoodEntry : Z) (ErrorVec : list Z) : bool * list Z :=
  let skip := false in
  let EventErrors := replicate 29 0 in
  let EventErrors := copy_errors veto EventErrors in
  let skip := check_skip skip_structural EventErrors (seq 0 18) skip in
  let EventErrors :=
    set_if (GetBadScaler veto &&
            ((GetRun veto <? 8557) ||
             Double.gt (GetTimeSBC veto) 2000000000%float))
           25 EventErrors in
  let entry := GetEntry veto in
  let firstGoodEntry := GetEntry first in
  let ErrorVec := EventErrors in
  if firstGoodEntry =? -1 then (skip, ErrorVec) else
  let SBCOffset := (GetTimeSBC first - GetTimeSec first)%float in
  let timeSBC := (GetTimeSBC veto - SBCOffset)%float in
  let prevtimeSBC := (GetTimeSBC prev - SBCOffset)%float in
  let EventErrors :=
    set_if (Double.gt (GetTimeSec veto) 0 && Double.gt timeSBC 0 &&
            Double.ne SBCOffset 0 &&
            negb (GetError veto 1) && (firstGoodEntry <? entry) &&
            Double.gt (Double.fabs ((GetTimeSec veto - GetTimeSec prev)
                                    - (timeSBC - prevtimeSBC))%float) 2)
           18 EventErrors in
  let EventErrors :=
    set_if ((GetSEC veto =? 0) && negb (entry =? 0) &&
            (firstGoodEntry <? entry))
           19 EventErrors in
  let EventErrors :=
    set_if ((entry - prevGoodEntry <? Z.abs (GetSEC veto - GetSEC prev)) &&
            (firstGoodEntry <? entry) && negb (GetSEC veto =? 0))
           20 EventErrors in
  let EventErrors :=
    set_if ((GetQEC veto =? 0) && negb (entry =? 0) &&
            (firstGoodEntry <? entry) && negb (GetError veto 1))
           21 EventErrors in
  let EventErrors :=
    set_if ((entry - prevGoodEntry <? Z.abs (GetQEC veto - GetQEC prev)) &&
            (firstGoodEntry <? entry) && negb (GetQEC veto =? 0))
           22 EventErrors in
  let EventErrors :=
    set_if ((GetQEC2 veto =? 0) && negb (entry =? 0) &&
            (firstGoodEntry <? entry) && negb (GetError veto 1))
           23 EventErrors in
  let EventErrors :=
    set_if ((entry - prevGoodEntry <? Z.abs (GetQEC2 veto - GetQEC2 prev)) &&
            (firstGoodEntry <? entry) && negb (GetQEC2 veto =? 0))
           24 EventErrors in
  let skip := check_skip skip_synch EventErrors (seq 18 8) skip in
  let ErrorVec := EventErrors in
  (skip, ErrorVec).

(** The four-argument overload: a local vector of 29 zeros is passed and
    dropped. *)
Definition CheckEventErrors_skip (veto prev first : MJVetoEvent)
    (prevGoodEntry : Z) : bool :=
  let ErrorVec := replicate 29 0 in
  fst (CheckEventErrors veto prev first prevGoodEntry ErrorVec).

(** ** InterpTime *)

(** [for (int i = entry; i < size; i++) if (badScaler[i] == 0) { upper =
    times[i]; break; }], with [n] the iterations left. *)
Fixpoint scan_upper (times : list float) (badScaler : list bool)
    (n i : nat) (upper : float) : float :=
  match n with
  | O => upper
  | S n' =>
      if negb (badScaler !!! i) then times !!! i
      else scan_upper times badScaler n' (S i) upper
  end.

(** [for (int j = entry; j > 0; j--) if (badScaler[j] == 0) { lower =
    times[j]; break; }] *)
Fixpoint scan_lower (times : list float) (badScaler : list bool)
    (j : nat) (lower : float) : float :=
  match j with
  | O => lower
  | S j' =>
      if negb (badScaler !!! j) then times !!! j
      else scan_lower times badScaler j' lower
  end.

(** The result is [None] where the C++ reads [badScaler[entry]] outside the
    vector. *)
Definition InterpTime (entry : Z) (times entries : list float)
    (badScaler : list bool) : option float :=
  if negb (length times =? length entries)%nat
     || negb (length times =? length badScaler)%nat
  then Some (-1)%float
  else if (entry <? 0) || (Z.of_nat (length badScaler) <=? entry) then None
  else
    let e := Z.to_nat entry in
    let iTime := 0%float in
    let lower := 0%float in
    let upper := 0%float in
    if negb (badScaler !!! e) then Some (times !!! e)
    else
      let upper := scan_upper times badScaler (length entries - e) e upper in
      let lower := scan_lower times badScaler e lower in
      Some ((upper + lower) / 2)%float.

(** The interpolation as the specification words it: the nearest entries
    with a good scaler strictly before and strictly after [i], and the mean
    of their times. *)
Fixpoint nearest_valid_before (badScaler : list bool) (i : nat) : option nat :=
  match i with
  | O => None
  | S k =>
      if negb (badScaler !!! k) then Some k
      else nearest_valid_before badScaler k
  end.

Fixpoint nearest_valid_from (badScaler : list bool) (n k : nat) : option nat :=
  match n with
  | O => None
  | S n' =>
      if negb (badScaler !!! k) then Some k
      else nearest_valid_from badScaler n' (S k)
  end.

Definition nearest_valid_after (badScaler : list bool) (i : nat) : option nat :=
  nearest_valid_from badScaler (length badScaler - S i) (S i).

Definition interp_mean_spec (i : nat) (times : list float)
    (badScaler : list bool) : option float :=
  match nearest_valid_before badScaler i, nearest_valid_after badScaler i with
  | Some a, Some b => Some ((times !!! b + times !!! a) / 2)%float
  | _, _ => None
  end.

(** ** The cuts and the hit pattern of ProcessVetoData *)

(** [for (q < 32) if (veto.GetQDC(q) > 500) over500Count++;] *)
Definition over500Count (veto : MJVetoEvent) : Z :=
  foldl (fun c q => if 500 <? GetQDC veto q then c + 1 else c) 0 (seq 0 32).

Definition EnergyCut (veto : MJVetoEvent) : bool :=
  let EnergyCut := false in
  if 2 <=? over500Count veto then true else EnergyCut.

(** [LEDTurnedOff] is [ErrorCount[25]] read as a [bool]. *)
Definition TimeCut (veto : MJVetoEvent) (multipThreshold : Z)
    (ErrorCount : list Z) : bool :=
  let TimeCut := false in
  let LEDTurnedOff := negb (ErrorCount !!! 25%nat =? 0) in
  if (GetMultip veto <? multipThreshold) && negb LEDTurnedOff then true
  else if LEDTurnedOff then true
  else TimeCut.

(** [{ PlaneTrue[p]=1; PlaneHits[p]++; }] *)
Definition hit_plane (p : nat) (st : list Z * list Z) : list Z * list Z :=
  let '(PlaneTrue, PlaneHits) := st in
  (<[p := 1]> PlaneTrue, <[p := PlaneHits !!! p + 1]> PlaneHits).

Definition map_hit (veto : MJVetoEvent) (st : list Z * list Z) (k : nat)
    : list Z * list Z :=
  if GetSWThresh veto k <? GetQDC veto k then
    let p := PanelMap (Z.of_nat k) 0 in
    if p =? 0 then hit_plane 0 st
    else if p =? 1 then hit_plane 1 st
    else if p =? 2 then hit_plane 2 st
    else if p =? 3 then hit_plane 3 st
    else if p =? 4 then hit_plane 4 st
    else if p =? 5 then hit_plane 5 st
    else if p =? 6 then hit_plane 6 st
    else if p =? 7 then hit_plane 7 st
    else if p =? 8 then hit_plane 8 st
    else if p =? 9 then hit_plane 9 st
    else if p =? 10 then hit_plane 10 st
    else if p =? 11 then hit_plane 11 st
    else st
  else st.

(** The hit-pattern block: planes 0..11 are cleared, the 32 channels are
    mapped, the planes that were hit are counted.  The result is
    [(PlaneTrue, PlaneHits, PlaneHitCount)]. *)
Definition HitPattern (veto : MJVetoEvent) (PlaneTrue PlaneHits : list Z)
    : list Z * list Z * Z :=
  let '(PlaneTrue, PlaneHits) :=
    foldl (fun st k => (<[k := 0]> (fst st), <[k := 0]> (snd st)))
          (PlaneTrue, PlaneHits) (seq 0 12) in
  let '(PlaneTrue, PlaneHits) :=
    foldl (map_hit veto) (PlaneTrue, PlaneHits) (seq 0 32) in
  let PlaneHitCount :=
    foldl (fun c k => if negb (PlaneTrue !!! k =? 0) then c + 1 else c)
          0 (seq 0 12) in
  (PlaneTrue, PlaneHits, PlaneHitCount).

(** The muon identification block.  [hitType] is the local [type] of the
    branch taken when both cuts pass, [None] when the branch is not
    entered. *)
Record MuonID_result : Type := mkMuonID {
  CoinType : list Z;
  hitType : option Z
}.

Definition MuonID (TimeCut EnergyCut : bool) (PlaneTrue : list Z)
    (CoinType : list Z) : MuonID_result :=
  let P (k : nat) : bool := negb (PlaneTrue !!! k =? 0) in
  let CoinType := foldl (fun v r => <[r := 0]> v) CoinType (seq 0 32) in
  if TimeCut && EnergyCut then
    let type := 0 in
    let a := false in
    let b := false in
    let c := false in
    let CoinType := <[0%nat := 1]> CoinType in
    let '(CoinType, a, type) :=
      if P 0%nat && P 1%nat && P 2%nat && P 3%nat
      then (<[1%nat := 1]> CoinType, true, 1)
      else (CoinType, a, type) in
    let '(CoinType, b, type) :=
      if (P 0%nat && P 1%nat) &&
         ((P 2%nat && P 3%nat) || (P 4%nat && P 5%nat) ||
          (P 6%nat && P 7%nat) || (P 8%nat && P 9%nat) ||
          (P 10%nat && P 11%nat))
      then (<[2%nat := 1]> CoinType, true, 2)
      else (CoinType, b, type) in
    let '(CoinType, c, type) :=
      if (P 2%nat && P 3%nat) &&
         ((P 4%nat && P 5%nat) || (P 6%nat && P 7%nat) ||
          (P 8%nat && P 9%nat) || (P 10%nat && P 11%nat))
      then (<[3%nat := 1]> CoinType, true, 3)
      else (CoinType, c, type) in
    let type := if (a && b) || (a && c) || (b && c) then 4 else type in
    mkMuonID CoinType (Some type)
  else mkMuonID CoinType None.

(** "side+bottom" as the specification words it: both bottom planes and one
    complete lateral pair (north, south, west or east). *)
Definition side_bottom_spec (PlaneTrue : list Z) : bool :=
  let P (k : nat) : bool := negb (PlaneTrue !!! k =? 0) in
  (P 0%nat && P 1%nat) &&
  ((P 4%nat && P 5%nat) || (P 6%nat && P 7%nat) ||
   (P 8%nat && P 9%nat) || (P 10%nat && P 11%nat)).

(** ** The LED period of the run-level checks *)

Record LED_result : Type := mkLED {
  LEDrms : float;
  LEDfreq : float;
  LEDperiod : float;
  badLEDFreq : bool;
  ErrorCount : list Z;
  EventError : list Z
}.

(** [if (dtEntries > 0) { ... } else { ... }]: the frequency from the
    delta-T histogram.  [hRMS] and [hMean] are what [GetRMS] and [GetMean]
    answer on the [+/- 100] bins around its maximum.  The result is
    [(LEDrms, LEDfreq, badLEDFreq)]. *)
Definition LEDFrequency (dtEntries : Z) (hRMS hMean : float)
    (badLEDFreq : bool) : float * float * bool :=
  if 0 <? dtEntries then (hRMS, (1 / hMean)%float, badLEDFreq)
  else (9999%float, 9999%float, true).

(** [if (LEDperiod > 9 || vEntries < 100) { ... }]: the short-run
    adjustment.  The result is [(LEDperiod, badLEDFreq)]. *)
Definition ShortRun (LEDperiod : float) (vEntries simpleLEDCount : Z)
    (duration : float) (badLEDFreq : bool) : float * bool :=
  if Double.gt LEDperiod 9 || (vEntries <? 100) then
    if 3 <? simpleLEDCount
    then ((duration / Double.of_Z simpleLEDCount)%float, badLEDFreq)
    else (9999%float, true)
  else (LEDperiod, badLEDFreq).

(** [if (LEDperiod > 20 || LEDperiod < 0 || badLEDFreq) { ErrorCount[25]++;
    EventError[25] = true; }] *)
Definition LEDError (LEDperiod : float) (badLEDFreq : bool)
    (ErrorCount EventError : list Z) : list Z * list Z :=
  if Double.gt LEDperiod 20 || PrimFloat.ltb LEDperiod 0 || badLEDFreq
  then (<[25%nat := ErrorCount !!! 25%nat + 1]> ErrorCount,
        <[25%nat := 1]> EventError)
  else (ErrorCount, EventError).

(** From [int dtEntries = LEDDeltaT->GetEntries();] to the update of slot
    25. *)
Definition LEDCheck (dtEntries : Z) (hRMS hMean : float)
    (vEntries simpleLEDCount : Z) (duration : float) (badLEDFreq : bool)
    (ErrorCount EventError : list Z) : LED_result :=
  let '(LEDrms, LEDfreq, badLEDFreq) :=
    LEDFrequency dtEntries hRMS hMean badLEDFreq in
  let LEDperiod := (1 / LEDfreq)%float in
  let '(LEDperiod, badLEDFreq) :=
    ShortRun LEDperiod vEntries simpleLEDCount duration badLEDFreq in
  let '(ErrorCount, EventError) :=
    LEDError LEDperiod badLEDFreq ErrorCount EventError in
  mkLED LEDrms LEDfreq LEDperiod badLEDFreq ErrorCount EventError.

(** ** The histogram and FindPanelThreshold *)

(** ROOT's one-dimensional histogram with bins of equal width, as far as the
    calibration uses it.  The class belongs to the ROOT library; its methods
    are written after ROOT 6 ([TAxis::SetRange], [TH1::GetMaximumBin],
    [TH1::FindFirstBinAbove], [TAxis::GetBinCenter], [TAxis::FindBin]).
    [fArray] has the [fNbins + 2] cells of the histogram, the underflow cell
    first and the overflow cell last; a cell counts the calls of [Fill] that
    fell into it. *)
Record TH1D : Type := mkTH1D {
  fNbins : Z;
  fXmin : float;
  fXmax : float;
  fArray : list Z;
  fFirst : Z;
  fLast : Z;
  kAxisRange : bool
}.

Definition TH1D_new (nbins : Z) (xlow xup : float) : TH1D :=
  mkTH1D nbins xlow xup (replicate (Z.to_nat (nbins + 2)) 0) 0 0 false.

Definition GetBinContent (h : TH1D) (bin : Z) : Z :=
  fArray h !!! Z.to_nat bin.

Definition FindBin (h : TH1D) (x : float) : Z :=
  if PrimFloat.ltb x (fXmin h) then 0
  else if negb (PrimFloat.ltb x (fXmax h)) then fNbins h + 1
  else 1 + Double.to_int (Double.of_Z (fNbins h) * (x - fXmin h)
                          / (fXmax h - fXmin h))%float.

Definition Fill (h : TH1D) (x : float) : TH1D :=
  let bin := Z.to_nat (FindBin h x) in
  mkTH1D (fNbins h) (fXmin h) (fXmax h)
         (<[bin := fArray h !!! bin + 1]> (fArray h))
         (fFirst h) (fLast h) (kAxisRange h).

(** The first of the bins [1 .. fNbins] whose content exceeds [threshold], or
    [-1]. *)
Definition FindFirstBinAbove (h : TH1D) (threshold : Z) : Z :=
  foldr (fun bin rest => if threshold <? GetBinContent h bin then bin else rest)
        (-1) (seqZ 1 (fNbins h)).

Definition SetRange (h : TH1D) (first last : Z) : TH1D :=
  let nCells := fNbins h + 1 in
  if (last <? first) || ((first <? 0) && (last <? 0)) ||
     ((nCells <? first) && (nCells <? last)) || ((first =? 0) && (last =? 0))
  then mkTH1D (fNbins h) (fXmin h) (fXmax h) (fArray h) 1 (fNbins h) false
  else mkTH1D (fNbins h) (fXmin h) (fXmax h) (fArray h)
              (Z.max first 0) (Z.min last nCells) true.

Definition GetFirst (h : TH1D) : Z := if kAxisRange h then fFirst h else 1.
Definition GetLast (h : TH1D) : Z :=
  if kAxisRange h then fLast h else fNbins h.

(** One step of the search for the maximum: [(maximum, locm)], with [None]
    for the initial [-FLT_MAX], below every count. *)
Definition max_step (h : TH1D) (st : option Z * Z) (binx : Z) : option Z * Z :=
  let value := GetBinContent h binx in
  match fst st with
  | None => (Some value, binx)
  | Some maximum => if maximum <? value then (Some value, binx) else st
  end.

Definition GetMaximumBin (h : TH1D) : Z :=
  let xfirst := GetFirst h in
  let xlast := GetLast h in
  snd (foldl (max_step h) (None, 0) (seqZ xfirst (xlast - xfirst + 1))).

Definition GetBinCenter (h : TH1D) (bin : Z) : float :=
  let binwidth := ((fXmax h - fXmin h) / Double.of_Z (fNbins h))%float in
  (fXmin h + Double.of_Z (bin - 1) * binwidth + 0.5 * binwidth)%float.

Definition GetBinLowEdge (h : TH1D) (bin : Z) : float :=
  let binwidth := ((fXmax h - fXmin h) / Double.of_Z (fNbins h))%float in
  (fXmin h + Double.of_Z (bin - 1) * binwidth)%float.

(** The threshold of one panel and the histogram as the call leaves it (its
    axis range is narrowed). *)
Definition FindPanelThreshold (qdcHist : TH1D) (threshVal panel runNum : Z)
    : Z * TH1D :=
  if (45000000 <? runNum) && (23 <? panel) then (9999, qdcHist) else
  let firstNonzeroBin := FindFirstBinAbove qdcHist 1 in
  let qdcHist :=
    SetRange qdcHist (firstNonzeroBin - 10) (firstNonzeroBin + 50) in
  let bin := GetMaximumBin qdcHist in
  if firstNonzeroBin =? -1 then (-1, qdcHist) else
  let xval := GetBinCenter qdcHist bin in
  (Double.to_int (xval + Double.of_Z threshVal)%float, qdcHist).

(** What [VetoThreshFinder] passes: the margin above the pedestal and the
    low-range histogram of a channel, filled with the amplitudes of the
    events that were not skipped. *)
Definition threshVal : Z := 35.
Definition bins : Z := 500.
Definition lower : Z := 0.
Definition upper : Z := 500.

Definition hLowQDC (amplitudes : list Z) : TH1D :=
  foldl (fun h a => Fill h (Double.of_Z a))
        (TH1D_new bins (Double.of_Z lower) (Double.of_Z upper)) amplitudes.

(** * Notions of the specification and of the proofs *)

(** The blocking slots of the error taxonomy. *)
Definition blocking_structural : list nat := [1; 2; 3; 5; 6; 9; 13; 14]%nat.
Definition blocking_slots : list nat := blocking_structural ++ seq 18 7.

(** A slot holds 0 or 1. *)
Definition flag01 (x : Z) : Prop := x = 0 \/ x = 1.

(** The seven synchronisation updates, with their conditions named. *)
Definition synch_updates (c18 c19 c20 c21 c22 c23 c24 : bool)
    (E : list Z) : list Z :=
  set_if c24 24 (set_if c23 23 (set_if c22 22 (set_if c21 21
    (set_if c20 20 (set_if c19 19 (set_if c18 18 E)))))).

(** The condition under which slot 25 is set. *)
Definition interp_flag (veto : MJVetoEvent) : bool :=
  GetBadScaler veto &&
  ((GetRun veto <? 8557) || Double.gt (GetTimeSBC veto) 2000000000%float).

(** A bad-scaler event of run 0, an event with flag 0 raised, an event with
    flag 1 (missing channels) raised, and an event with two channels at
    600. *)
Definition bad_scaler_event : MJVetoEvent :=
  mkVetoEvent 0 0 (replicate 18 false) true 0%float 0%float 0 0 0
              (replicate 32 0) (replicate 32 0) 0.

Definition flag0_event : MJVetoEvent :=
  mkVetoEvent 0 0 (true :: replicate 17 false) false 0%float 0%float 0 0 0
              (replicate 32 0) (replicate 32 0) 0.

Definition flag1_event : MJVetoEvent :=
  mkVetoEvent 0 0 ([false; true] ++ replicate 16 false) false
              0%float 0%float 0 0 0 (replicate 32 0) (replicate 32 0) 0.

Definition two_hits_event : MJVetoEvent :=
  mkVetoEvent 0 0 (replicate 18 false) false 0%float 0%float 0 0 0
              ([600; 20; 600] ++ replicate 29 20) (replicate 32 85) 2.

(** The counting loop of the energy cut, over any list of channels. *)
Definition tally (P : nat -> bool) (l : list nat) (c : Z) : Z :=
  foldl (fun c q => if P q then c + 1 else c) c l.

(** The planes 0, 1, 2, 3 hit and no other. *)
Definition vertical_hit : list Z := [1; 1; 1; 1] ++ replicate 28 0.

(** Three entries, the middle one with a bad scaler. *)
Definition gap_times : list float := [4; 0; 8]%float.
Definition gap_entries : list float := [0; 1; 2]%float.
Definition gap_badScaler : list bool := [false; true; false].

(** The shape of the histograms [hLowQDC[i]]: 500 bins of width 1 from 0. *)
Definition low_range_histogram (h : TH1D) : Prop :=
  fNbins h = bins /\ fXmin h = Double.of_Z lower /\
  fXmax h = Double.of_Z upper /\ length (fArray h) = Z.to_nat (bins + 2).

(** [f] is the first bin of the axis with more than [threshold] entries. *)
Definition first_bin_above (h : TH1D) (threshold f : Z) : Prop :=
  1 <= f <= fNbins h /\ threshold < GetBinContent h f /\
  forall b, 1 <= b < f -> GetBinContent h b <= threshold.

(** [m] is the modal bin of the cells [lo .. hi]: none of them holds more,
    and those before [m] hold less. *)
Definition modal_bin (h : TH1D) (lo hi m : Z) : Prop :=
  lo <= m <= hi /\
  (forall b, lo <= b <= hi -> GetBinContent h b <= GetBinContent h m) /\
  (forall b, lo <= b < m -> GetBinContent h b < GetBinContent h m).

Definition empty_hLowQDC : TH1D :=
  TH1D_new bins (Double.of_Z lower) (Double.of_Z upper).

(** What is checked of the cell [m] of the low-range axis: the conversion of
    centre plus margin, the lower edge, and their order. *)
Definition bin_check (m : Z) : bool :=
  (Double.to_int (GetBinCenter empty_hLowQDC m + Double.of_Z threshVal)%float
   =? (m - 1) + threshVal) &&
  PrimFloat.Leibniz.eqb (GetBinLowEdge empty_hLowQDC m) (Double.of_Z (m - 1)) &&
  PrimFloat.leb (GetBinCenter empty_hLowQDC m)
                (Double.of_Z ((m - 1) + threshVal)) &&
  PrimFloat.ltb (GetBinLowEdge empty_hLowQDC m) (GetBinCenter empty_hLowQDC m).

(** An integer amplitude [a] of the axis falls into the bin [a + 1]. *)
Definition amplitude_check (a : Z) : bool :=
  FindBin empty_hLowQDC (Double.of_Z a) =? a + 1.

(** Amplitudes of a channel with its pedestal at 50. *)
Definition pedestal_amplitudes : list Z :=
  [3; 3; 48; 49; 49; 50; 50; 50; 50; 51; 51; 52; 700].

(** * Further parts of the program *)

(** ** The thresholds handed from VetoThreshFinder to ProcessVetoData *)

#[global] Instance TH1D_inhabited : Inhabited TH1D :=
  populate (TH1D_new 0 0%float 0%float).

(** [a[i] = x] on a C array: a negative index is outside the array, like one
    beyond its end, and leaves the model of the array as it is. *)
Definition array_write (a : list Z) (i x : Z) : list Z :=
  if i <? 0 then a else <[Z.to_nat i := x]> a.

(** The last loop over the channels in [VetoThreshFinder]:
    [thresh[i] = FindPanelThreshold(hLowQDC[i],threshVal,i,runNum);
     thresholds.push_back(i); thresholds.push_back(thresh[i]);]
    [hists] are the 32 histograms [hLowQDC[i]]; the result is
    [(thresh, thresholds)]. *)
Definition VetoThreshFinder_thresholds (hists : list TH1D) (runNum : Z)
    : list Z * list Z :=
  foldl (fun st i =>
           let thresh :=
             <[i := (FindPanelThreshold (hists !!! i) threshVal
                                        (Z.of_nat i) runNum).1]> (fst st) in
           (thresh, snd st ++ [Z.of_nat i] ++ [thresh !!! i]))
        (9999 :: replicate 31 0, []) (seq 0 32).

(** The first loop of [ProcessVetoData]:
    [int swThresh[32] = {0};
     for (i = 0; i < size; i+=2) swThresh[thresholds[i]] = thresholds[i+1];] *)
Definition swThresh_of (thresholds : list Z) : list Z :=
  foldl (fun swThresh k =>
           array_write swThresh (thresholds !!! (2 * k)%nat)
                       (thresholds !!! (2 * k + 1)%nat))
        (replicate 32 0) (seq 0 ((length thresholds + 1) / 2)).

(** ** The LED multiplicity threshold *)

Definition LEDMultipThreshold : Z := 5.

(** [multipThreshold = highestMultip - LEDMultipThreshold;
     if (multipThreshold < 0) multipThreshold = 0;] *)
Definition multipThreshold_of (highestMultip : Z) : Z :=
  let multipThreshold := highestMultip - LEDMultipThreshold in
  if multipThreshold <? 0 then 0 else multipThreshold.

(** ** The error report *)

Definition nErrs : nat := 29.
Definition SeriousErrors : list nat :=
  [1; 13; 14; 18; 19; 20; 21; 22; 23; 24]%nat.

(** [for (int i = 1; i < nErrs; i++) { ... }] after the second loop over the
    entries; the result is [(TotalErrorCount, SeriousErrorCount)]. *)
Definition ErrorTotals (ErrorCount : list Z) : Z * Z :=
  foldl (fun st i =>
           let TotalErrorCount :=
             if negb (i =? 10)%nat && negb (i =? 11)%nat
             then fst st + ErrorCount !!! i else fst st in
           let SeriousErrorCount :=
             if (i =? 25)%nat && (0 <? ErrorCount !!! i)
             then snd st + ErrorCount !!! i else snd st in
           let SeriousErrorCount :=
             foldl (fun s j => if (i =? j)%nat then s + ErrorCount !!! i
                               else s)
                   SeriousErrorCount SeriousErrors in
           (TotalErrorCount, SeriousErrorCount))
        (0, 0) (seq 1 (nErrs - 1)).

(** ** The time of an event *)

(** The choice of the event time in the third loop of [ProcessVetoData]; the
    result is [(xTime, timeSBC, ApproxTime)], with [xTime = None] where
    [InterpTime] reads outside its vectors. *)
Definition FindEventTime (veto : MJVetoEvent) (run i : Z)
    (SBCOffset timeSBC : float) (EntryTime EntryNum : list float)
    (BadScalers : list bool) : option float * float * bool :=
  let ApproxTime := false in
  if negb (GetBadScaler veto) then
    let xTime := GetTimeSec veto in
    let timeSBC :=
      if (8557 <? run) && PrimFloat.ltb (GetTimeSBC veto) 2000000000%float
      then (GetTimeSBC veto - SBCOffset)%float else timeSBC in
    (Some xTime, timeSBC, ApproxTime)
  else if (8557 <? run) && PrimFloat.ltb (GetTimeSBC veto) 2000000000%float
  then
    let timeSBC := (GetTimeSBC veto - SBCOffset)%float in
    let xTime := timeSBC in
    (Some xTime, timeSBC, ApproxTime)
  else
    let xTime := InterpTime i EntryTime EntryNum BadScalers in
    (xTime, timeSBC, true).

(** The nearest [double] to 0.001. *)
Definition millisecond : float := 0x1.0624dd2f1a9fcp-10%float.

(** The scaler jump handling that follows; the result is
    [(xTime, ApproxTime, foundScalerJump, deltaTadj)]. *)
Definition ScalerJump (veto : MJVetoEvent) (EventError : list Z)
    (xTime timeSBC TSdifference : float) (ApproxTime foundScalerJump : bool)
    : float * bool * bool * float :=
  let deltaTadj := (GetTimeSec veto - timeSBC - TSdifference)%float in
  let '(foundScalerJump, xTime) :=
    if negb (EventError !!! 18%nat =? 0)
    then (true, (xTime - deltaTadj)%float)
    else (foundScalerJump, xTime) in
  let '(ApproxTime, xTime) :=
    if foundScalerJump then (true, (xTime - TSdifference)%float)
    else (ApproxTime, xTime) in
  let foundScalerJump :=
    if PrimFloat.ltb (Double.fabs TSdifference) millisecond then false
    else foundScalerJump in
  (xTime, ApproxTime, foundScalerJump, deltaTadj).

(** ** Notions of the further proofs *)

(** Channel [c] is above its software threshold. *)
Definition channel_hit (veto : MJVetoEvent) (c : nat) : bool :=
  GetSWThresh veto c <? GetQDC veto c.

(** The plane of a channel, as an index. *)
Definition plane_of (c : nat) : nat := Z.to_nat (PanelMap (Z.of_nat c) 0).

(** Some of the pairs north, south, west, east is complete. *)
Definition lateral_pair (PlaneTrue : list Z) : bool :=
  let P (k : nat) : bool := negb (PlaneTrue !!! k =? 0) in
  (P 4%nat && P 5%nat) || (P 6%nat && P 7%nat) ||
  (P 8%nat && P 9%nat) || (P 10%nat && P 11%nat).

Definition bottom_pair (PlaneTrue : list Z) : bool :=
  negb (PlaneTrue !!! 0%nat =? 0) && negb (PlaneTrue !!! 1%nat =? 0).

Definition top_pair (PlaneTrue : list Z) : bool :=
  negb (PlaneTrue !!! 2%nat =? 0) && negb (PlaneTrue !!! 3%nat =? 0).

(** An amplitude of the QDC range falls into the bin after it, or into the
    overflow cell. *)
Definition fill_check (a : Z) : bool :=
  FindBin empty_hLowQDC (Double.of_Z a) =? Z.min (a + 1) (bins + 1).

(** Sample inputs. *)
Definition sample_thresh : list Z := seqZ 50 32.

Definition sample_ErrorCount : list Z :=
  [0; 2; 0; 0; 0; 0; 0; 0; 0; 0; 7; 7; 0; 0; 0; 0; 0; 0; 1; 0; 0; 0; 0; 0; 0;
   0; 0; 0; 0].

Definition sample_times : list float := [1; 4; 0; 8]%float.
Definition sample_entries : list float := [0; 1; 2; 3]%float.
Definition sample_badScaler : list bool := [false; false; true; false].
Definition tail_badScaler : list bool := [false; false; true; true].

(** Consecutive good events 6 and 7, after a first good event 0. *)
Definition first_event : MJVetoEvent :=
  mkVetoEvent 9000 0 (replicate 18 false) false 10%float 1010%float 1 1 1
              (replicate 32 20) (replicate 32 85) 0.

Definition event6 : MJVetoEvent :=
  mkVetoEvent 9000 6 (replicate 18 false) false 16%float 1016%float 7 7 7
              (replicate 32 20) (replicate 32 85) 0.

Definition event7 : MJVetoEvent :=
  mkVetoEvent 9000 7 (replicate 18 false) false 17%float 1017%float 8 8 8
              (replicate 32 20) (replicate 32 85) 0.

(** Event 7 with its packet of channels missing. *)
Definition event7_missing : MJVetoEvent :=
  mkVetoEvent 9000 7 ([false; true] ++ replicate 16 false) false
              17%float 1017%float 8 0 0
              (replicate 32 20) (replicate 32 85) 0.

(** A bad-scaler event of the run 8557. *)
Definition event_8557 : MJVetoEvent :=
  mkVetoEvent 8557 7 (replicate 18 false) true 0%float 1017%float 8 8 8
              (replicate 32 20) (replicate 32 85) 0.

(** An event with the channels 0 and 7 above a threshold of 85. *)
Definition bottom_event : MJVetoEvent :=
  mkVetoEvent 9000 7 (replicate 18 false) false 17%float 1017%float 8 8 8
              ([600] ++ replicate 6 20 ++ [700] ++ replicate 24 20)
              (replicate 32 85) 2.

(** ** The first loop of ProcessVetoData *)

Definition LEDSimpleThreshold : Z := 10.

Module Survey.

(** The variables that the first loop over the entries updates.  [LEDDeltaT]
    stands for the delta-T histogram: the values it was filled with, in
    order, so that [GetEntries] is their number. *)
Record t : Type := mk {
  first : MJVetoEvent;
  prev : MJVetoEvent;
  foundFirst : bool;
  foundFirstScaler : bool;
  firstGoodScaler : float;
  prevGoodTime : float;
  prevGoodEntry : Z;
  highestMultip : Z;
  simpleLEDCount : Z;
  skippedEvents : Z;
  BadScalers : list bool;
  EntryNum : list float;
  EntryTime : list float;
  LEDDeltaT : list float
}.

(** The variables as [ProcessVetoData] declares them. *)
Definition init : t :=
  mk MJVetoEvent_default MJVetoEvent_default false false 0%float 0%float 0
     0 0 0 [] [] [] [].

(** The body of the loop for the entry [i], decoded as [veto]. *)
Definition step (vEntries : Z) (duration : float) (s : t) (i : Z)
    (veto : MJVetoEvent) : t :=
  let '(BadScalers, xTime) :=
    if negb (GetBadScaler veto)
    then (BadScalers s ++ [false], GetTimeSec veto)
    else (BadScalers s ++ [true],
          (Double.of_Z i / Double.of_Z vEntries * duration)%float) in
  let EntryNum := EntryNum s ++ [Double.of_Z i] in
  let EntryTime := EntryTime s ++ [xTime] in
  let foundFirst :=
    if foundFirst s && GetError veto 1 then false else foundFirst s in
  let '(foundFirstScaler, firstGoodScaler) :=
    if negb (foundFirstScaler s) && negb (GetError veto 4)
    then (true, GetTimeSec veto)
    else (foundFirstScaler s, firstGoodScaler s) in
  if CheckEventErrors_skip veto (prev s) (first s) (prevGoodEntry s) then
    mk (first s) veto foundFirst foundFirstScaler firstGoodScaler
       xTime i (highestMultip s) (simpleLEDCount s) (skippedEvents s + 1)
       BadScalers EntryNum EntryTime (LEDDeltaT s)
  else
    let '(first, foundFirst) :=
      if negb foundFirst && Double.gt (GetTimeSBC veto) 0
         && Double.gt (GetTimeSec veto) 0 && negb (GetError veto 4)
      then (veto, true) else (first s, foundFirst) in
    let highestMultip :=
      if highestMultip s <? GetMultip veto then GetMultip veto
      else highestMultip s in
    let '(LEDDeltaT, simpleLEDCount) :=
      if LEDSimpleThreshold <? GetMultip veto
      then (LEDDeltaT s ++ [(GetTimeSec veto - GetTimeSec (prev s))%float],
            simpleLEDCount s + 1)
      else (LEDDeltaT s, simpleLEDCount s) in
    mk first veto foundFirst foundFirstScaler firstGoodScaler
       xTime i highestMultip simpleLEDCount (skippedEvents s)
       BadScalers EntryNum EntryTime LEDDeltaT.

(** [while (reader.Next())] over the entries [i], [i + 1], ... *)
Fixpoint loop (vEntries : Z) (duration : float) (s : t) (i : Z)
    (events : list MJVetoEvent) : t :=
  match events with
  | [] => s
  | veto :: rest =>
      loop vEntries duration (step vEntries duration s i veto) (i + 1) rest
  end.

End Survey.

(** A stream of three events: a good one, one with channels missing, a
    high-multiplicity one. *)
Definition led_event : MJVetoEvent :=
  mkVetoEvent 9000 2 (replicate 18 false) false 12%float 1012%float 3 3 3
              (replicate 32 600) (replicate 32 85) 32.

Definition sample_stream : list MJVetoEvent :=
  [first_event;
   mkVetoEvent 9000 1 ([false; true] ++ replicate 16 false) true
               0%float 1011%float 2 0 0 (replicate 32 20) (replicate 32 85) 0;
   led_event].

(** * Properties *)

(** ** The error classifier *)

Section CheckEventErrors_facts.

Implicit Types (veto prev first : MJVetoEvent) (E : list Z) (q : nat).

Lemma check_skip_true named E (qs : list nat) (s : bool) :
  check_skip named E qs s = true <->
  s = true \/ exists q, q ∈ qs /\ E !!! q = 1 /\ named q = true.
Proof.
  unfold check_skip. revert s.
  induction qs as [|a qs IH]; intros s; simpl.
  - split; [now left|]. intros [H|(q & H & _)]; [exact H|].
    now apply elem_of_nil in H.
  - rewrite IH. split.
    + intros [H|(q & Hq & H1 & H2)].
      * destruct ((E !!! a =? 1) && named a) eqn:Hc; [|now left].
        apply andb_true_iff in Hc as [Ha Hn]. apply Z.eqb_eq in Ha.
        right. exists a. split; [apply list_elem_of_here|easy].
      * right. exists q. split; [now apply list_elem_of_further|easy].
    + intros [->|(q & Hq & H1 & H2)].
      * left. now destruct ((E !!! a =? 1) && named a).
      * apply elem_of_cons in Hq as [->|Hq].
        -- left. rewrite H1, H2. reflexivity.
        -- right. exists q. easy.
Qed.

Lemma set_if_length c q E : length (set_if c q E) = length E.
Proof. destruct c; simpl; [apply length_insert|reflexivity]. Qed.

Lemma set_if_other c q q' E : q <> q' -> set_if c q E !!! q' = E !!! q'.
Proof.
  intros Hne. destruct c; simpl; [|reflexivity].
  now apply list_lookup_total_insert_ne.
Qed.

Lemma set_if_same c q E :
  (q < length E)%nat -> set_if c q E !!! q = if c then 1 else E !!! q.
Proof.
  intros Hlt. destruct c; simpl; [|reflexivity].
  now apply list_lookup_total_insert_eq.
Qed.


Lemma set_if_flags c q E : Forall flag01 E -> Forall flag01 (set_if c q E).
Proof.
  intros H. destruct c; simpl; [|exact H].
  apply Forall_insert; [exact H|now right].
Qed.

(** The vector after the copy of the structural flags. *)
Lemma copy_errors_zeros veto :
  copy_errors veto (replicate 29 0) =
  ((fun i => Z.b2z (GetError veto i)) <$> seq 0 18) ++ replicate 11 0.
Proof. reflexivity. Qed.

Lemma copy_errors_length veto :
  length (copy_errors veto (replicate 29 0)) = 29%nat.
Proof. reflexivity. Qed.

Lemma copy_errors_structural veto q :
  (q < 18)%nat ->
  copy_errors veto (replicate 29 0) !!! q = Z.b2z (GetError veto q).
Proof.
  intros Hq. rewrite copy_errors_zeros.
  do 18 (destruct q as [|q]; [reflexivity|]). lia.
Qed.

Lemma copy_errors_rest veto q :
  (18 <= q < 29)%nat -> copy_errors veto (replicate 29 0) !!! q = 0.
Proof.
  intros Hq. rewrite copy_errors_zeros.
  do 18 (destruct q as [|q]; [lia|]).
  do 11 (destruct q as [|q]; [reflexivity|]). lia.
Qed.

Lemma copy_errors_flags veto :
  Forall flag01 (copy_errors veto (replicate 29 0)).
Proof.
  rewrite copy_errors_zeros. apply Forall_app. split.
  - apply Forall_fmap, Forall_forall. intros i _. simpl.
    destruct (GetError veto i); [now right|now left].
  - apply Forall_replicate. now left.
Qed.



(** The two ways out of the function. *)
Lemma CheckEventErrors_shape veto prev first (prevGoodEntry : Z)
    (ErrorVec : list Z) :
  exists c18 c19 c20 c21 c22 c23 c24 : bool,
    let E1 := copy_errors veto (replicate 29 0) in
    let s1 := check_skip skip_structural E1 (seq 0 18) false in
    let E25 := set_if (interp_flag veto) 25 E1 in
    let E2 := synch_updates c18 c19 c20 c21 c22 c23 c24 E25 in
    CheckEventErrors veto prev first prevGoodEntry ErrorVec =
    if GetEntry first =? -1 then (s1, E25)
    else (check_skip skip_synch E2 (seq 18 8) s1, E2).
Proof.
  do 7 eexists. unfold CheckEventErrors, synch_updates, interp_flag.
  cbv zeta. reflexivity.
Qed.

Lemma synch_updates_length c18 c19 c20 c21 c22 c23 c24 E :
  length (synch_updates c18 c19 c20 c21 c22 c23 c24 E) = length E.
Proof. unfold synch_updates. now rewrite !set_if_length. Qed.

Lemma synch_updates_flags c18 c19 c20 c21 c22 c23 c24 E :
  Forall flag01 E ->
  Forall flag01 (synch_updates c18 c19 c20 c21 c22 c23 c24 E).
Proof. intros H. unfold synch_updates. now repeat apply set_if_flags. Qed.

Lemma synch_updates_structural c18 c19 c20 c21 c22 c23 c24 E q :
  (q < 18)%nat -> synch_updates c18 c19 c20 c21 c22 c23 c24 E !!! q = E !!! q.
Proof.
  intros Hq. unfold synch_updates. rewrite !set_if_other by lia. reflexivity.
Qed.

Lemma CheckEventErrors_length veto prev first (prevGoodEntry : Z)
    (ErrorVec : list Z) :
  length (CheckEventErrors veto prev first prevGoodEntry ErrorVec).2 = 29%nat.
Proof.
  destruct (CheckEventErrors_shape veto prev first prevGoodEntry ErrorVec)
    as (c18 & c19 & c20 & c21 & c22 & c23 & c24 & ->).
  cbv zeta. destruct (GetEntry first =? -1); simpl.
  - now rewrite set_if_length.
  - now rewrite synch_updates_length, set_if_length.
Qed.

Lemma CheckEventErrors_flags veto prev first (prevGoodEntry : Z)
    (ErrorVec : list Z) :
  Forall flag01 (CheckEventErrors veto prev first prevGoodEntry ErrorVec).2.
Proof.
  destruct (CheckEventErrors_shape veto prev first prevGoodEntry ErrorVec)
    as (c18 & c19 & c20 & c21 & c22 & c23 & c24 & ->).
  cbv zeta. destruct (GetEntry first =? -1); simpl.
  - apply set_if_flags, copy_errors_flags.
  - apply synch_updates_flags, set_if_flags, copy_errors_flags.
Qed.

(** The structural slots of the result are the flags of the event. *)
Lemma CheckEventErrors_structural veto prev first (prevGoodEntry : Z)
    (ErrorVec : list Z) q :
  (q < 18)%nat ->
  (CheckEventErrors veto prev first prevGoodEntry ErrorVec).2 !!! q
  = Z.b2z (GetError veto q).
Proof.
  intros Hq.
  destruct (CheckEventErrors_shape veto prev first prevGoodEntry ErrorVec)
    as (c18 & c19 & c20 & c21 & c22 & c23 & c24 & ->).
  cbv zeta. destruct (GetEntry first =? -1); simpl.
  - rewrite set_if_other by lia. now apply copy_errors_structural.
  - rewrite synch_updates_structural by lia.
    rewrite set_if_other by lia. now apply copy_errors_structural.
Qed.

End CheckEventErrors_facts.

Section CheckEventErrors_claims.

Implicit Types (veto prev first : MJVetoEvent) (E : list Z) (q : nat).

Lemma skip_structural_spec q :
  skip_structural q = true <-> q ∈ blocking_structural.
Proof.
  unfold skip_structural, blocking_structural.
  rewrite !orb_true_iff, !Nat.eqb_eq, !elem_of_cons, elem_of_nil. tauto.
Qed.

Lemma skip_synch_spec q : skip_synch q = true <-> (18 <= q < 25)%nat.
Proof.
  unfold skip_synch. rewrite !orb_true_iff, !Nat.eqb_eq. lia.
Qed.

Lemma blocking_structural_lt q : q ∈ blocking_structural -> (q < 18)%nat.
Proof.
  unfold blocking_structural. rewrite !elem_of_cons, elem_of_nil. lia.
Qed.

Lemma flag01_nonzero (x : Z) : flag01 x -> x <> 0 -> x = 1.
Proof. intros [->| ->] H; [contradiction|reflexivity]. Qed.

(** The first loop raises [skip] exactly on a structural blocking flag. *)
Lemma structural_skip veto :
  let E1 := copy_errors veto (replicate 29 0) in
  check_skip skip_structural E1 (seq 0 18) false = true <->
  exists q, q ∈ blocking_structural /\ E1 !!! q = 1.
Proof.
  intros E1. rewrite check_skip_true. split.
  - intros [H|(q & _ & H1 & H2)]; [discriminate|].
    exists q. split; [now apply skip_structural_spec|exact H1].
  - intros (q & Hq & H1). right. exists q. split; [|split].
    + apply elem_of_seq. apply blocking_structural_lt in Hq. lia.
    + exact H1.
    + now apply skip_structural_spec.
Qed.

(** C1. [CheckEventErrors] answers [skip = true] if and only if one of the
    blocking slots 1, 2, 3, 5, 6, 9, 13, 14, 18, ..., 24 of the error
    vector it hands back is set. *)
Theorem CheckEventErrors_skip_iff_blocking
    veto prev first (prevGoodEntry : Z) (ErrorVec : list Z) :
  (CheckEventErrors veto prev first prevGoodEntry ErrorVec).1 = true <->
  exists q, q ∈ blocking_slots /\
    (CheckEventErrors veto prev first prevGoodEntry ErrorVec).2 !!! q <> 0.
Proof.
  destruct (CheckEventErrors_shape veto prev first prevGoodEntry ErrorVec)
    as (c18 & c19 & c20 & c21 & c22 & c23 & c24 & ->).
  cbv zeta.
  set (E1 := copy_errors veto (replicate 29 0)).
  set (E25 := set_if (interp_flag veto) 25 E1).
  set (E2 := synch_updates c18 c19 c20 c21 c22 c23 c24 E25).
  assert (HE1 : Forall flag01 E1) by apply copy_errors_flags.
  assert (HE2 : Forall flag01 E2)
    by now apply synch_updates_flags, set_if_flags.
  assert (HL2 : length E2 = 29%nat).
  { unfold E2, E25. now rewrite synch_updates_length, set_if_length. }
  assert (H25 : forall q, (q < 25)%nat -> E25 !!! q = E1 !!! q).
  { intros q Hq. unfold E25. apply set_if_other. lia. }
  assert (H2 : forall q, (q < 18)%nat -> E2 !!! q = E1 !!! q).
  { intros q Hq. unfold E2. rewrite synch_updates_structural by lia.
    apply H25. lia. }
  pose proof (structural_skip veto) as Hs. cbv zeta in Hs. fold E1 in Hs.
  unfold blocking_slots.
  destruct (GetEntry first =? -1); cbn [fst snd].
  - rewrite Hs. split.
    + intros (q & Hq & H1). exists q. split.
      * apply elem_of_app. now left.
      * rewrite H25 by (apply blocking_structural_lt in Hq; lia). lia.
    + intros (q & Hq & Hne). apply elem_of_app in Hq as [Hq|Hq].
      * exists q. split; [exact Hq|].
        pose proof (blocking_structural_lt q Hq) as Hlt.
        rewrite H25 in Hne by lia.
        apply flag01_nonzero; [|exact Hne].
        apply Forall_lookup_total_1; [exact HE1|].
        unfold E1. rewrite copy_errors_length. lia.
      * apply elem_of_seq in Hq. exfalso. apply Hne.
        rewrite H25 by lia. unfold E1. apply copy_errors_rest. lia.
  - rewrite check_skip_true, Hs. split.
    + intros [(q & Hq & H1)|(q & Hq & H1 & Hn)].
      * exists q. split; [apply elem_of_app; now left|].
        rewrite H2 by now apply blocking_structural_lt. lia.
      * exists q. split; [|lia].
        apply elem_of_app. right. apply elem_of_seq.
        apply skip_synch_spec in Hn. lia.
    + intros (q & Hq & Hne). apply elem_of_app in Hq as [Hq|Hq].
      * left. exists q. split; [exact Hq|].
        pose proof (blocking_structural_lt q Hq) as Hlt.
        rewrite H2 in Hne by lia.
        apply flag01_nonzero; [|exact Hne].
        apply Forall_lookup_total_1; [exact HE1|].
        unfold E1. rewrite copy_errors_length. lia.
      * apply elem_of_seq in Hq. right. exists q. split; [|split].
        -- apply elem_of_seq. lia.
        -- apply flag01_nonzero; [|exact Hne].
           apply Forall_lookup_total_1; [exact HE2|]. lia.
        -- apply skip_synch_spec. lia.
Qed.

Lemma CheckEventErrors_skip_iff_blocking_witness :
  (CheckEventErrors flag1_event MJVetoEvent_default MJVetoEvent_default
                    0 (replicate 29 0)).1 = true.
Proof.
  apply (CheckEventErrors_skip_iff_blocking flag1_event MJVetoEvent_default
           MJVetoEvent_default 0 (replicate 29 0)).
  exists 1%nat. split; [apply list_elem_of_here|].
  vm_compute. discriminate.
Defined.

(** C4 as the claim words it fails: with no first good entry yet, slot 25
    is set for a bad-scaler event of an early run. *)

Lemma CheckEventErrors_first_unset_slot25_cex :
  ~ (forall veto prev first (prevGoodEntry : Z) (ErrorVec : list Z) q,
        GetEntry first = -1 -> (18 <= q <= 25)%nat ->
        (CheckEventErrors veto prev first prevGoodEntry ErrorVec).2 !!! q
        = 0).
Proof.
  intros H.
  specialize (H bad_scaler_event MJVetoEvent_default MJVetoEvent_default
                0 (replicate 29 0) 25%nat eq_refl ltac:(lia)).
  vm_compute in H. discriminate H.
Qed.

(** C4, amended.  When the first good entry is still [-1], the slots 18 to
    24 and 26 to 28 of the returned vector are clear, and slot 25 is set
    exactly when the event has a bad scaler and its run is below 8557 or
    its SBC time above 2000000000. *)
Theorem CheckEventErrors_first_unset
    veto prev first (prevGoodEntry : Z) (ErrorVec : list Z) :
  GetEntry first = -1 ->
  let E := (CheckEventErrors veto prev first prevGoodEntry ErrorVec).2 in
  (forall q, (18 <= q < 29)%nat -> q <> 25%nat -> E !!! q = 0) /\
  E !!! 25%nat = Z.b2z (GetBadScaler veto &&
                        ((GetRun veto <? 8557) ||
                         Double.gt (GetTimeSBC veto) 2000000000%float)).
Proof.
  intros Hfirst.
  destruct (CheckEventErrors_shape veto prev first prevGoodEntry ErrorVec)
    as (c18 & c19 & c20 & c21 & c22 & c23 & c24 & ->).
  cbv zeta. rewrite Hfirst. cbn [Z.eqb fst snd Pos.eqb]. split.
  - intros q Hq Hne. rewrite set_if_other by lia.
    now apply copy_errors_rest.
  - rewrite set_if_same by (rewrite copy_errors_length; lia).
    fold (interp_flag veto). destruct (interp_flag veto); [reflexivity|].
    apply copy_errors_rest. lia.
Qed.

Lemma CheckEventErrors_first_unset_witness :
  let E := (CheckEventErrors bad_scaler_event MJVetoEvent_default
              MJVetoEvent_default 0 (replicate 29 0)).2 in
  E !!! 18%nat = 0 /\ E !!! 24%nat = 0 /\ E !!! 25%nat = 1.
Proof.
  destruct (CheckEventErrors_first_unset bad_scaler_event MJVetoEvent_default
              MJVetoEvent_default 0 (replicate 29 0) eq_refl) as [H H25].
  split; [apply H; lia|]. split; [apply H; lia|exact H25].
Defined.

(** C5 as the claim words it fails: flag 0 of the event is copied into
    slot 0. *)

Lemma CheckEventErrors_slot0_cex :
  ~ (forall veto prev first (prevGoodEntry : Z) (ErrorVec : list Z),
        let E := (CheckEventErrors veto prev first prevGoodEntry
                                   ErrorVec).2 in
        length E = 29%nat /\ E !!! 0%nat = 0).
Proof.
  intros H.
  destruct (H flag0_event MJVetoEvent_default MJVetoEvent_default
              0 (replicate 29 0)) as [_ H0].
  vm_compute in H0. discriminate H0.
Qed.

(** C5, amended.  The returned vector has 29 slots, and slot 0 holds flag 0
    of the event: it is clear exactly when that flag is. *)
Theorem CheckEventErrors_length_slot0
    veto prev first (prevGoodEntry : Z) (ErrorVec : list Z) :
  let E := (CheckEventErrors veto prev first prevGoodEntry ErrorVec).2 in
  length E = 29%nat /\
  E !!! 0%nat = Z.b2z (GetError veto 0) /\
  (E !!! 0%nat = 0 <-> GetError veto 0 = false).
Proof.
  cbv zeta. split; [apply CheckEventErrors_length|].
  rewrite CheckEventErrors_structural by lia.
  split; [reflexivity|]. destruct (GetError veto 0); simpl; split; easy.
Qed.

End CheckEventErrors_claims.

(** ** PanelMap *)

Lemma PanelMap_channel (n : nat) (runNum : Z) :
  (n < 32)%nat -> 0 <= PanelMap (Z.of_nat n) runNum <= 11.
Proof.
  intros Hn. do 32 (destruct n as [|n]; [vm_compute; split; discriminate|]).
  lia.
Qed.

Lemma PanelMap_outside (i runNum : Z) :
  ~ (0 <= i <= 31) -> PanelMap i runNum = -1.
Proof.
  intros Hi. unfold PanelMap.
  repeat (match goal with
          | |- context [?a =? ?b] => destruct (Z.eqb_spec a b); [lia|]
          end).
  reflexivity.
Qed.

(** C10. Every channel 0..31 is mapped to a plane 0..11, and [-1] is
    answered for the indices outside 0..31 and for no other. *)
Theorem PanelMap_range (i runNum : Z) :
  (0 <= i <= 31 -> 0 <= PanelMap i runNum <= 11) /\
  (PanelMap i runNum = -1 <-> ~ (0 <= i <= 31)).
Proof.
  assert (Hin : 0 <= i <= 31 -> 0 <= PanelMap i runNum <= 11).
  { intros Hi. rewrite <- (Z2Nat.id i) by lia. apply PanelMap_channel. lia. }
  split; [exact Hin|]. split.
  - intros Hm Hi. specialize (Hin Hi). lia.
  - apply PanelMap_outside.
Qed.

Lemma PanelMap_range_witness : 0 <= PanelMap 22 0 <= 11.
Proof. apply (PanelMap_range 22 0). lia. Defined.

(** ** The energy cut *)

Section Tally.

Variable P : nat -> bool.

Lemma tally_shift (l : list nat) (c : Z) : tally P l c = c + tally P l 0.
Proof.
  unfold tally. revert c. induction l as [|a l IH]; intros c; simpl.
  - lia.
  - rewrite (IH (if P a then c + 1 else c)), (IH (if P a then 0 + 1 else 0)).
    destruct (P a); lia.
Qed.

Lemma tally_cons (a : nat) (l : list nat) :
  tally P (a :: l) 0 = (if P a then 1 else 0) + tally P l 0.
Proof.
  unfold tally at 1. simpl. fold (tally P l (if P a then 0 + 1 else 0)).
  rewrite tally_shift. destruct (P a); lia.
Qed.

Lemma tally_nonneg (l : list nat) : 0 <= tally P l 0.
Proof.
  induction l as [|a l IH]; [reflexivity|].
  rewrite tally_cons. destruct (P a); lia.
Qed.

Lemma tally_one (l : list nat) :
  1 <= tally P l 0 <-> exists i, i ∈ l /\ P i = true.
Proof.
  induction l as [|a l IH].
  - split; [intros H; vm_compute in H; now elim H|].
    intros (i & Hi & _). now apply elem_of_nil in Hi.
  - rewrite tally_cons. split.
    + intros H. destruct (P a) eqn:Ha.
      * exists a. split; [apply list_elem_of_here|exact Ha].
      * destruct IH as [IH _]. destruct IH as (i & Hi & HP); [lia|].
        exists i. split; [now apply list_elem_of_further|exact HP].
    + intros (i & Hi & HP). apply elem_of_cons in Hi as [->|Hi].
      * rewrite HP. pose proof (tally_nonneg l). lia.
      * assert (1 <= tally P l 0) by (apply IH; eauto).
        destruct (P a); lia.
Qed.

Lemma tally_two (l : list nat) :
  NoDup l ->
  2 <= tally P l 0 <->
  exists i j, i <> j /\ i ∈ l /\ j ∈ l /\ P i = true /\ P j = true.
Proof.
  induction 1 as [|a l Ha Hnd IH].
  - split; [intros H; vm_compute in H; now elim H|].
    intros (i & _ & _ & Hi & _). now apply elem_of_nil in Hi.
  - rewrite tally_cons. split.
    + intros H. destruct (P a) eqn:HPa.
      * assert (H1 : 1 <= tally P l 0) by lia.
        apply tally_one in H1 as (j & Hj & HPj).
        exists a, j. repeat split; try assumption.
        -- intros ->. contradiction.
        -- apply list_elem_of_here.
        -- now apply list_elem_of_further.
      * destruct IH as [IH _].
        destruct IH as (i & j & Hne & Hi & Hj & HPi & HPj); [lia|].
        exists i, j. repeat split; try assumption;
          now apply list_elem_of_further.
    + intros (i & j & Hne & Hi & Hj & HPi & HPj).
      apply elem_of_cons in Hi as [->|Hi];
        apply elem_of_cons in Hj as [->|Hj].
      * contradiction.
      * rewrite HPi. assert (1 <= tally P l 0) by (apply tally_one; eauto).
        lia.
      * rewrite HPj. assert (1 <= tally P l 0) by (apply tally_one; eauto).
        lia.
      * assert (2 <= tally P l 0) by (apply IH; eauto 10).
        destruct (P a); lia.
Qed.

End Tally.

Lemma over500Count_tally (veto : MJVetoEvent) :
  over500Count veto = tally (fun q => 500 <? GetQDC veto q) (seq 0 32) 0.
Proof. unfold over500Count, tally. reflexivity. Qed.

(** C9. The energy cut holds exactly when two different channels among the
    32 read more than 500, and the software thresholds of the event play no
    part in it. *)
Theorem EnergyCut_two_over_500 (veto : MJVetoEvent) :
  (EnergyCut veto = true <->
   exists i j : nat, i <> j /\ (i < 32)%nat /\ (j < 32)%nat /\
                     500 < GetQDC veto i /\ 500 < GetQDC veto j) /\
  (forall thresh : list Z,
      EnergyCut (SetSWThresh veto thresh) = EnergyCut veto).
Proof.
  split;
    [|intros thresh; unfold EnergyCut, over500Count, GetQDC, SetSWThresh;
      cbn [fQDC]; reflexivity].
  unfold EnergyCut. rewrite over500Count_tally.
  set (P := fun q => 500 <? GetQDC veto q).
  assert (Hiff : (if 2 <=? tally P (seq 0 32) 0 then true else false) = true
                 <-> 2 <= tally P (seq 0 32) 0).
  { generalize (tally P (seq 0 32) 0). intros t.
    destruct (Z.leb_spec 2 t); split; intros H0;
      try reflexivity; try discriminate H0; try assumption; lia. }
  rewrite Hiff, (tally_two P (seq 0 32) (NoDup_seq 0 32)).
  split.
  - intros (i & j & Hne & Hi & Hj & HPi & HPj).
    apply elem_of_seq in Hi, Hj. unfold P in HPi, HPj.
    apply Z.ltb_lt in HPi, HPj. exists i, j. repeat split; try assumption; lia.
  - intros (i & j & Hne & Hi & Hj & HPi & HPj).
    exists i, j. unfold P. repeat split; try assumption;
      try (apply elem_of_seq; lia); now apply Z.ltb_lt.
Qed.

Lemma EnergyCut_two_over_500_witness : EnergyCut two_hits_event = true.
Proof.
  apply (proj1 (EnergyCut_two_over_500 two_hits_event)).
  exists 0%nat, 2%nat. repeat split; try lia; vm_compute; reflexivity.
Defined.

(** ** The coincidence types *)

(** What the code puts into [CoinType[2]]: the top pair counts among the
    pairs that may accompany the bottom pair. *)
Lemma MuonID_CoinType2 (PlaneTrue CoinType0 : list Z) :
  length CoinType0 = 32%nat ->
  let P (k : nat) : bool := negb (PlaneTrue !!! k =? 0) in
  CoinType (MuonID true true PlaneTrue CoinType0) !!! 2%nat =
  Z.b2z ((P 0%nat && P 1%nat) &&
         ((P 2%nat && P 3%nat) || (P 4%nat && P 5%nat) ||
          (P 6%nat && P 7%nat) || (P 8%nat && P 9%nat) ||
          (P 10%nat && P 11%nat))).
Proof.
  intros Hlen P.
  do 33 (destruct CoinType0 as [|? CoinType0]; try discriminate Hlen).
  unfold MuonID, P. cbv zeta. cbn [andb].
  match goal with
  | |- context [if ?c then (<[2%nat:=1]> _, true, 2) else _] => destruct c
  end;
    match goal with
    | |- context [if ?c then (<[1%nat:=1]> _, true, 1) else _] => destruct c
    end;
    match goal with
    | |- context [if ?c then (<[3%nat:=1]> _, true, 3) else _] => destruct c
    end; reflexivity.
Qed.

(** The type "vertical" is never what the branch ends with: a vertical hit
    also passes the test of type 2, and the two together make type 4. *)
Lemma MuonID_never_vertical (TimeCut EnergyCut : bool)
    (PlaneTrue CoinType0 : list Z) :
  hitType (MuonID TimeCut EnergyCut PlaneTrue CoinType0) <> Some 1.
Proof.
  unfold MuonID. cbv zeta.
  destruct (TimeCut && EnergyCut); [|cbn; discriminate].
  generalize (negb (PlaneTrue !!! 0%nat =? 0)); intros p0.
  generalize (negb (PlaneTrue !!! 1%nat =? 0)); intros p1.
  generalize (negb (PlaneTrue !!! 2%nat =? 0)); intros p2.
  generalize (negb (PlaneTrue !!! 3%nat =? 0)); intros p3.
  destruct p0, p1, p2, p3; cbn [andb orb];
    repeat match goal with
           | |- context [if ?c then _ else _] => destruct c
           end; cbn; discriminate.
Qed.

(** C3. Both cuts passing and the planes 0, 1, 2, 3 hit, no lateral plane
    hit: the specification keeps "side+bottom" off, the code sets
    [CoinType[2]] (and ends with type 4, "compound"). *)
Theorem MuonID_top_pair_counts_as_side :
  side_bottom_spec vertical_hit = false /\
  CoinType (MuonID true true vertical_hit (replicate 32 0)) !!! 2%nat = 1 /\
  hitType (MuonID true true vertical_hit (replicate 32 0)) = Some 4.
Proof. repeat split. Qed.

(** ** Interpolated times *)

Section InterpTime_facts.

Variables (times : list float) (badScaler : list bool).

Lemma scan_upper_nearest (n k b : nat) (upper : float) :
  nearest_valid_from badScaler n k = Some b ->
  scan_upper times badScaler n k upper = times !!! b.
Proof.
  revert k. induction n as [|n IH]; intros k; simpl; [discriminate|].
  destruct (negb (badScaler !!! k)).
  - intros [= ->]. reflexivity.
  - apply IH.
Qed.

Lemma scan_lower_nearest (j a : nat) (lower : float) :
  nearest_valid_before badScaler (S j) = Some a -> (0 < a)%nat ->
  scan_lower times badScaler j lower = times !!! a.
Proof.
  induction j as [|j IH]; intros Hn Ha.
  - simpl in Hn. destruct (negb (badScaler !!! 0%nat)); [|discriminate].
    injection Hn as <-. lia.
  - cbn [nearest_valid_before] in Hn. cbn [scan_lower].
    destruct (negb (badScaler !!! S j)).
    + injection Hn as <-. reflexivity.
    + now apply IH.
Qed.

(** Entry 0 is never looked at by the backward loop: when the nearest good
    scaler before the entry is entry 0, [lower] keeps its initial 0. *)
Lemma scan_lower_first (j : nat) (lower : float) :
  nearest_valid_before badScaler (S j) = Some 0%nat ->
  scan_lower times badScaler j lower = lower.
Proof.
  induction j as [|j IH]; intros Hn; [reflexivity|].
  cbn [nearest_valid_before] in Hn. cbn [scan_lower].
  destruct (negb (badScaler !!! S j)); [discriminate|]. now apply IH.
Qed.

(** Where the nearest good scaler before the entry is not entry 0 and one
    exists after it, the code returns the mean the specification asks
    for. *)
Lemma InterpTime_mean (entries : list float) (e a b : nat) :
  length times = length entries -> length times = length badScaler ->
  (e < length badScaler)%nat -> badScaler !!! e = true ->
  nearest_valid_before badScaler e = Some a -> (0 < a)%nat ->
  nearest_valid_after badScaler e = Some b ->
  InterpTime (Z.of_nat e) times entries badScaler
  = Some ((times !!! b + times !!! a) / 2)%float /\
  interp_mean_spec e times badScaler
  = Some ((times !!! b + times !!! a) / 2)%float.
Proof.
  intros Hte Htb He Hbad Ha Hpos Hb. split.
  - unfold InterpTime.
    rewrite <- Hte, <- Htb, !Nat.eqb_refl. cbn [negb orb].
    destruct (Z.ltb_spec (Z.of_nat e) 0); [lia|].
    destruct (Z.leb_spec (Z.of_nat (length times)) (Z.of_nat e)); [lia|].
    cbn [orb]. rewrite Nat2Z.id, Hbad. cbn [negb].
    destruct e as [|e]; [discriminate Ha|].
    replace (length times - S e)%nat with (S (length badScaler - S (S e)))
      by lia.
    cbn [scan_upper scan_lower]. rewrite Hbad. cbn [negb].
    rewrite (scan_upper_nearest _ _ b) by exact Hb.
    rewrite (scan_lower_nearest _ a) by assumption.
    reflexivity.
  - unfold interp_mean_spec. now rewrite Ha, Hb.
Qed.

End InterpTime_facts.

(** C2. Entry 1 has a bad scaler, its neighbours 0 and 2 are good with the
    times 4 and 8: the mean of the two is 6, [InterpTime] answers 4, the mean
    of 8 and the initial 0 of [lower], because its backward loop stops before
    entry 0. *)
Theorem InterpTime_misses_entry_zero :
  gap_badScaler !!! 1%nat = true /\
  length gap_times = length gap_entries /\
  length gap_times = length gap_badScaler /\
  interp_mean_spec 1 gap_times gap_badScaler = Some 6%float /\
  InterpTime 1 gap_times gap_entries gap_badScaler = Some 4%float /\
  Some 4%float <> Some 6%float.
Proof.
  repeat split. intros H.
  apply (f_equal (fun o => match o with
                           | Some x => PrimFloat.eqb x 4
                           | None => false
                           end)) in H.
  vm_compute in H. discriminate H.
Qed.

(** ** The LED period *)

(** C7 as the claim words it fails: with exactly 3 simple-count events the
    period is not recomputed. *)
Lemma LEDCheck_three_events_cex :
  ~ (forall (dtEntries : Z) (hRMS hMean : float) (vEntries simpleLEDCount : Z)
            (duration : float) (badLEDFreq0 : bool)
            (ErrorCount0 EventError0 : list Z),
        Double.gt
          (1 / (LEDFrequency dtEntries hRMS hMean badLEDFreq0).1.2)%float 9
        = true \/ vEntries < 100 ->
        3 <= simpleLEDCount ->
        LEDperiod (LEDCheck dtEntries hRMS hMean vEntries simpleLEDCount
                            duration badLEDFreq0 ErrorCount0 EventError0)
        = (duration / Double.of_Z simpleLEDCount)%float).
Proof.
  intros H.
  specialize (H 3 0%float 2%float 50 3 30%float false
                (replicate 29 0) (replicate 29 0) (or_intror eq_refl)).
  specialize (H ltac:(lia)).
  apply (f_equal (fun x => PrimFloat.eqb x 9999)) in H.
  vm_compute in H. discriminate H.
Qed.

(** C7, amended.  When the period derived from the histogram exceeds 9
    seconds or the run has fewer than 100 entries: with more than 3
    simple-count events the period becomes the duration divided by their
    number and the bad-frequency flag is left as it was; with 3 or fewer the
    period is 9999, the flag is raised and the run-level slot 25 is set and
    counted. *)
Theorem LEDCheck_short_run (dtEntries : Z) (hRMS hMean : float)
    (vEntries simpleLEDCount : Z) (duration : float) (badLEDFreq0 : bool)
    (ErrorCount0 EventError0 : list Z) :
  let '(_, LEDfreq0, bad1) := LEDFrequency dtEntries hRMS hMean badLEDFreq0 in
  let r := LEDCheck dtEntries hRMS hMean vEntries simpleLEDCount duration
                    badLEDFreq0 ErrorCount0 EventError0 in
  length ErrorCount0 = 29%nat -> length EventError0 = 29%nat ->
  Double.gt (1 / LEDfreq0)%float 9 = true \/ vEntries < 100 ->
  (3 < simpleLEDCount ->
   LEDperiod r = (duration / Double.of_Z simpleLEDCount)%float /\
   badLEDFreq r = bad1) /\
  (simpleLEDCount <= 3 ->
   LEDperiod r = 9999%float /\ badLEDFreq r = true /\
   EventError r !!! 25%nat = 1 /\
   ErrorCount r !!! 25%nat = ErrorCount0 !!! 25%nat + 1).
Proof.
  unfold LEDCheck.
  destruct (LEDFrequency dtEntries hRMS hMean badLEDFreq0)
    as [[rms freq] bad1].
  cbv zeta. intros HlenC HlenE Hcond.
  assert (Hc : Double.gt (1 / freq) 9 || (vEntries <? 100) = true).
  { apply orb_true_iff. destruct Hcond as [H|H]; [now left|right].
    now apply Z.ltb_lt. }
  unfold ShortRun. rewrite Hc. split.
  - intros Hgt. apply Z.ltb_lt in Hgt. rewrite Hgt.
    destruct (LEDError _ _ _ _). cbn. split; reflexivity.
  - intros Hle. assert (Hf : (3 <? simpleLEDCount) = false)
      by (apply Z.ltb_ge; lia).
    rewrite Hf. unfold LEDError. rewrite orb_true_r. cbn [LEDperiod
      badLEDFreq EventError ErrorCount].
    repeat split; apply list_lookup_total_insert_eq; lia.
Qed.

Lemma LEDCheck_short_run_witness :
  let r := LEDCheck 3 0%float 2%float 50 3 30%float false
                    (replicate 29 0) (replicate 29 0) in
  LEDperiod r = 9999%float /\ badLEDFreq r = true /\
  EventError r !!! 25%nat = 1 /\
  ErrorCount r !!! 25%nat = replicate 29 0 !!! 25%nat + 1.
Proof.
  apply (LEDCheck_short_run 3 0%float 2%float 50 3 30%float false
           (replicate 29 0) (replicate 29 0) eq_refl eq_refl
           (or_intror eq_refl)).
  lia.
Defined.

(** ** The panel thresholds *)

Section Histogram_facts.

Lemma find_first_scan (c : Z -> Z) (thr : Z) (n : nat) (s : Z) :
  0 <= s ->
  let r := foldr (fun bin rest => if thr <? c bin then bin else rest)
                 (-1) (seqZ s (Z.of_nat n)) in
  (r = -1 /\ forall b, s <= b < s + Z.of_nat n -> c b <= thr) \/
  (s <= r < s + Z.of_nat n /\ thr < c r /\
   forall b, s <= b < r -> c b <= thr).
Proof.
  revert s. induction n as [|n IH]; intros s Hs.
  - left. split; [reflexivity|]. intros b Hb. lia.
  - rewrite seqZ_cons by lia.
    replace (Z.pred (Z.of_nat (S n))) with (Z.of_nat n) by lia.
    cbn [foldr]. cbv zeta.
    destruct (Z.ltb_spec thr (c s)) as [Hlt|Hge].
    + right. split; [lia|]. split; [exact Hlt|]. intros b Hb. lia.
    + destruct (IH (Z.succ s) ltac:(lia)) as [[Hr Hall]|(Hr & Hc & Hall)].
      * left. split; [exact Hr|]. intros b Hb.
        destruct (Z.eq_dec b s) as [->|Hne]; [exact Hge|].
        apply Hall. lia.
      * right. split; [lia|]. split; [exact Hc|]. intros b Hb.
        destruct (Z.eq_dec b s) as [->|Hne]; [exact Hge|].
        apply Hall. lia.
Qed.

Lemma FindFirstBinAbove_spec (h : TH1D) (thr : Z) :
  0 <= fNbins h ->
  (FindFirstBinAbove h thr = -1 /\
   forall b, 1 <= b <= fNbins h -> GetBinContent h b <= thr) \/
  first_bin_above h thr (FindFirstBinAbove h thr).
Proof.
  intros Hn. unfold FindFirstBinAbove, first_bin_above.
  pose proof (find_first_scan (GetBinContent h) thr
                (Z.to_nat (fNbins h)) 1 ltac:(lia)) as H.
  rewrite Z2Nat.id in H by exact Hn. cbv zeta in H.
  destruct H as [[Hr Hall]|(Hr & Hc & Hall)].
  - left. split; [exact Hr|]. intros b Hb. apply Hall. lia.
  - right. split; [lia|]. split; [exact Hc|exact Hall].
Qed.

Lemma max_scan (h : TH1D) (lo : Z) (n : nat) :
  exists m,
    foldl (max_step h) (None, 0) (seqZ lo (Z.of_nat (S n)))
    = (Some (GetBinContent h m), m) /\
    modal_bin h lo (lo + Z.of_nat n) m.
Proof.
  induction n as [|n (m & Hst & Hr & Hmax & Hfirst)].
  - exists lo. split; [reflexivity|]. unfold modal_bin.
    split; [lia|]. split; intros b Hb; [|lia].
    replace b with lo by lia. lia.
  - rewrite seqZ_S, foldl_app, Hst. cbn [foldl]. unfold max_step at 1.
    cbn [fst].
    destruct (Z.ltb_spec (GetBinContent h m)
                         (GetBinContent h (lo + Z.of_nat (S n))))
      as [Hlt|Hge].
    + exists (lo + Z.of_nat (S n)). split; [reflexivity|].
      split; [lia|]. split; intros b Hb.
      * destruct (Z.eq_dec b (lo + Z.of_nat (S n))) as [->|Hne]; [lia|].
        specialize (Hmax b ltac:(lia)). lia.
      * specialize (Hmax b ltac:(lia)). lia.
    + exists m. split; [reflexivity|].
      split; [lia|]. split; intros b Hb.
      * destruct (Z.eq_dec b (lo + Z.of_nat (S n))) as [->|Hne];
          [exact Hge|].
        apply Hmax. lia.
      * apply Hfirst. lia.
Qed.

Lemma GetMaximumBin_spec (h : TH1D) :
  GetFirst h <= GetLast h ->
  modal_bin h (GetFirst h) (GetLast h) (GetMaximumBin h).
Proof.
  intros Hle. unfold GetMaximumBin. cbv zeta.
  destruct (max_scan h (GetFirst h) (Z.to_nat (GetLast h - GetFirst h)))
    as (m & Hst & Hm).
  replace (Z.of_nat (S (Z.to_nat (GetLast h - GetFirst h))))
    with (GetLast h - GetFirst h + 1) in Hst by lia.
  rewrite Hst. cbn [snd].
  replace (GetFirst h + Z.of_nat (Z.to_nat (GetLast h - GetFirst h)))
    with (GetLast h) in Hm by lia.
  exact Hm.
Qed.

(** The window that [SetRange] leaves around a bin of the axis. *)
Lemma SetRange_window (h : TH1D) (f : Z) :
  1 <= f <= fNbins h ->
  let h' := SetRange h (f - 10) (f + 50) in
  GetFirst h' = Z.max (f - 10) 0 /\
  GetLast h' = Z.min (f + 50) (fNbins h + 1) /\
  fArray h' = fArray h /\ fNbins h' = fNbins h /\
  fXmin h' = fXmin h /\ fXmax h' = fXmax h.
Proof.
  intros Hf. unfold SetRange. cbv zeta.
  destruct (Z.ltb_spec (f + 50) (f - 10)); [lia|].
  destruct (Z.ltb_spec (f + 50) 0); [lia|]. rewrite andb_false_r.
  destruct (Z.ltb_spec (fNbins h + 1) (f - 10)); [lia|].
  destruct (Z.eqb_spec (f + 50) 0); [lia|]. rewrite andb_false_r.
  cbn [orb andb]. unfold GetFirst, GetLast. cbn. repeat split.
Qed.

Lemma modal_bin_ext (h h' : TH1D) (lo hi m : Z) :
  fArray h' = fArray h -> modal_bin h' lo hi m -> modal_bin h lo hi m.
Proof.
  unfold modal_bin, GetBinContent. intros ->. trivial.
Qed.

(** The arithmetic of the bin centres of the low-range axis, bin by bin,
    the underflow and overflow cells included. *)
Lemma bin_check_all : forallb bin_check (seqZ 0 (bins + 2)) = true.
Proof. vm_compute. reflexivity. Qed.

Lemma bin_check_bin (m : Z) : 0 <= m <= bins + 1 -> bin_check m = true.
Proof.
  intros Hm. pose proof bin_check_all as H.
  rewrite forallb_forall in H. apply H.
  apply list_elem_of_In, elem_of_seqZ. lia.
Qed.

Lemma GetBinCenter_low_range (h : TH1D) (m : Z) :
  low_range_histogram h ->
  GetBinCenter h m = GetBinCenter empty_hLowQDC m /\
  GetBinLowEdge h m = GetBinLowEdge empty_hLowQDC m.
Proof.
  intros (Hn & Hlo & Hup & _). unfold GetBinCenter, GetBinLowEdge.
  rewrite Hn, Hlo, Hup. split; reflexivity.
Qed.

Lemma Fill_low_range (h : TH1D) (x : float) :
  low_range_histogram h -> low_range_histogram (Fill h x).
Proof.
  intros (Hn & Hlo & Hup & Hlen). unfold low_range_histogram, Fill.
  cbn. rewrite length_insert. repeat split; assumption.
Qed.

(** The histogram that the calibration fills has the low-range shape. *)
Lemma hLowQDC_low_range (amplitudes : list Z) :
  low_range_histogram (hLowQDC amplitudes).
Proof.
  unfold hLowQDC.
  assert (H0 : low_range_histogram
                 (TH1D_new bins (Double.of_Z lower) (Double.of_Z upper))).
  { repeat split. }
  revert H0. generalize (TH1D_new bins (Double.of_Z lower) (Double.of_Z upper)).
  induction amplitudes as [|a l IH]; intros h Hh; [exact Hh|].
  cbn [foldl]. apply IH. now apply Fill_low_range.
Qed.

Lemma amplitude_check_all : forallb amplitude_check (seqZ 0 bins) = true.
Proof. vm_compute. reflexivity. Qed.

(** An amplitude [a] of the axis is counted in the bin [a + 1], the one
    that starts at [a]. *)
Lemma FindBin_amplitude (h : TH1D) (a : Z) :
  low_range_histogram h -> 0 <= a < bins ->
  FindBin h (Double.of_Z a) = a + 1.
Proof.
  intros (Hn & Hlo & Hup & _) Ha. pose proof amplitude_check_all as H.
  rewrite forallb_forall in H.
  specialize (H a). unfold amplitude_check in H.
  rewrite <- (proj1 (Z.eqb_eq _ _) (H ltac:(apply list_elem_of_In,
                                             elem_of_seqZ; lia))).
  unfold FindBin. rewrite Hn, Hlo, Hup. reflexivity.
Qed.

End Histogram_facts.

(** C6. For a low-range amplitude histogram and the margin 35 of the
    calibration: a panel above 23 of a run above 45000000 gets 9999;
    otherwise, with no bin of the axis holding more than one entry, the
    answer is -1; otherwise, with [f] the first bin holding more than one
    entry, the answer is taken from the modal bin [m] of the bins [f - 10] to
    [f + 50] (as far as the histogram has them): it is the amplitude [m - 1]
    at which that bin starts plus 35, which is what the conversion to [int]
    leaves of the bin centre plus 35, and it is not below the bin centre. *)
Theorem FindPanelThreshold_calibration (h : TH1D) (panel runNum : Z) :
  low_range_histogram h ->
  let t := (FindPanelThreshold h threshVal panel runNum).1 in
  (45000000 < runNum /\ 23 < panel -> t = 9999) /\
  (~ (45000000 < runNum /\ 23 < panel) ->
   (forall b, 1 <= b <= bins -> GetBinContent h b <= 1) -> t = -1) /\
  (~ (45000000 < runNum /\ 23 < panel) ->
   forall f, first_bin_above h 1 f ->
     exists m,
       modal_bin h (Z.max (f - 10) 0) (Z.min (f + 50) (bins + 1)) m /\
       GetBinLowEdge h m = Double.of_Z (m - 1) /\
       t = (m - 1) + 35 /\
       t = Double.to_int (GetBinCenter h m + Double.of_Z 35)%float /\
       PrimFloat.leb (GetBinCenter h m) (Double.of_Z t) = true).
Proof.
  intros Hh t. pose proof Hh as (Hn & Hlo & Hup & Hlen).
  assert (Hera : 45000000 < runNum /\ 23 < panel \/
                 (45000000 <? runNum) && (23 <? panel) = false).
  { destruct (Z.ltb_spec 45000000 runNum);
      destruct (Z.ltb_spec 23 panel); cbn; auto. }
  assert (Hnb : 0 <= fNbins h) by (rewrite Hn; unfold bins; lia).
  split; [|split].
  - intros [Hr Hp]. unfold t, FindPanelThreshold.
    apply Z.ltb_lt in Hr, Hp. now rewrite Hr, Hp.
  - intros Hno Hall. unfold t, FindPanelThreshold.
    destruct Hera as [Hyes | ->]; [contradiction|].
    destruct (FindFirstBinAbove_spec h 1 Hnb) as [[Hr _]|(Hf & Hc & _)].
    + rewrite Hr. reflexivity.
    + rewrite Hn in Hf. specialize (Hall _ Hf). lia.
  - intros Hno f Hfirst. unfold t, FindPanelThreshold.
    destruct Hera as [Hyes | ->]; [contradiction|].
    assert (Hff : FindFirstBinAbove h 1 = f).
    { destruct (FindFirstBinAbove_spec h 1 Hnb)
        as [[_ Hall]|(Hg & Hgc & Hgall)].
      - destruct Hfirst as (Hf & Hc & _). specialize (Hall _ Hf). lia.
      - destruct Hfirst as (Hf & Hc & Hfall).
        destruct (Z.lt_trichotomy (FindFirstBinAbove h 1) f) as [Hlt|[Heq|Hgt]].
        + specialize (Hfall _ (conj (proj1 Hg) Hlt)). lia.
        + exact Heq.
        + specialize (Hgall f ltac:(lia)). lia. }
    rewrite Hff. cbv zeta.
    pose proof Hfirst as (Hf & _ & _).
    destruct (SetRange_window h f Hf) as (HF & HL & HA & HN & HXlo & HXup).
    cbv zeta in HF, HL, HA, HN, HXlo, HXup.
    set (h' := SetRange h (f - 10) (f + 50)) in *.
    assert (Hh' : low_range_histogram h').
    { unfold low_range_histogram. rewrite HN, HXlo, HXup, HA.
      repeat split; assumption. }
    assert (Hm : modal_bin h (Z.max (f - 10) 0) (Z.min (f + 50) (bins + 1))
                   (GetMaximumBin h')).
    { apply (modal_bin_ext h h'); [exact HA|].
      rewrite <- Hn, <- HF, <- HL. apply GetMaximumBin_spec. lia. }
    destruct (Z.eqb_spec f (-1)) as [->|_]; [lia|].
    exists (GetMaximumBin h'). split; [exact Hm|].
    destruct Hm as (Hrange & _ & _).
    assert (Hb : bin_check (GetMaximumBin h') = true).
    { apply bin_check_bin. rewrite Hn in Hf. lia. }
    unfold bin_check in Hb.
    apply andb_true_iff in Hb as [Hb Hb4].
    apply andb_true_iff in Hb as [Hb Hb3].
    apply andb_true_iff in Hb as [Hb1 Hb2].
    apply Z.eqb_eq in Hb1. apply FloatAxioms.Leibniz.eqb_spec in Hb2.
    destruct (GetBinCenter_low_range h' (GetMaximumBin h') Hh') as [Hc' _].
    destruct (GetBinCenter_low_range h (GetMaximumBin h') Hh) as [Hc He].
    cbn [fst]. rewrite Hc', Hc, He. unfold threshVal in *.
    rewrite Hb1. repeat split; assumption.
Qed.

Lemma FindPanelThreshold_calibration_witness :
  (FindPanelThreshold (hLowQDC pedestal_amplitudes) threshVal 0 0).1 = 85 /\
  exists m,
    modal_bin (hLowQDC pedestal_amplitudes)
              (Z.max (4 - 10) 0) (Z.min (4 + 50) (bins + 1)) m /\
    (FindPanelThreshold (hLowQDC pedestal_amplitudes) threshVal 0 0).1
    = (m - 1) + 35.
Proof.
  split; [vm_compute; reflexivity|].
  assert (Hh : low_range_histogram (hLowQDC pedestal_amplitudes))
    by (repeat split; vm_compute; reflexivity).
  destruct (FindPanelThreshold_calibration (hLowQDC pedestal_amplitudes) 0 0
              Hh) as (_ & _ & H).
  destruct (H ltac:(lia) 4) as (m & Hm & _ & Ht & _).
  - split; [vm_compute; split; discriminate|].
    split; [vm_compute; reflexivity|].
    intros b Hb.
    assert (Hcases : b = 1 \/ b = 2 \/ b = 3) by lia.
    destruct Hcases as [-> | [-> | ->]]; vm_compute; discriminate.
  - exists m. split; [exact Hm|exact Ht].
Defined.

(** * Further properties *)

(** ** The error classifier, slot by slot *)

Section CheckEventErrors_slots.

Implicit Types (veto prev first : MJVetoEvent) (E : list Z) (q : nat).

Lemma CheckEventErrors_early_slots veto prev first (prevGoodEntry : Z)
    (ErrorVec : list Z) q :
  GetEntry first = -1 -> (18 <= q < 25)%nat ->
  (CheckEventErrors veto prev first prevGoodEntry ErrorVec).2 !!! q = 0.
Proof.
  intros Hfirst Hq.
  destruct (CheckEventErrors_shape veto prev first prevGoodEntry ErrorVec)
    as (c18 & c19 & c20 & c21 & c22 & c23 & c24 & ->).
  cbv zeta. rewrite Hfirst. cbn [Z.eqb fst snd Pos.eqb].
  rewrite set_if_other by lia. apply copy_errors_rest. lia.
Qed.

Lemma CheckEventErrors_late_slots veto prev first (prevGoodEntry : Z)
    (ErrorVec : list Z) :
  let E := (CheckEventErrors veto prev first prevGoodEntry ErrorVec).2 in
  (forall q, (26 <= q < 29)%nat -> E !!! q = 0) /\
  E !!! 25%nat = Z.b2z (interp_flag veto).
Proof.
  destruct (CheckEventErrors_shape veto prev first prevGoodEntry ErrorVec)
    as (c18 & c19 & c20 & c21 & c22 & c23 & c24 & ->).
  cbv zeta. unfold synch_updates.
  destruct (GetEntry first =? -1); cbn [fst snd]; split.
  - intros q Hq. rewrite set_if_other by lia. apply copy_errors_rest. lia.
  - rewrite set_if_same by (rewrite copy_errors_length; lia).
    destruct (interp_flag veto); [reflexivity|]. apply copy_errors_rest. lia.
  - intros q Hq. rewrite !set_if_other by lia. apply copy_errors_rest. lia.
  - rewrite !set_if_other by lia.
    rewrite set_if_same by (rewrite copy_errors_length; lia).
    destruct (interp_flag veto); [reflexivity|]. apply copy_errors_rest. lia.
Qed.

Ltac synch_slot :=
  repeat first
    [ rewrite set_if_other by lia
    | rewrite set_if_same
        by (rewrite ?set_if_length, copy_errors_length; lia) ];
  match goal with
  | |- (if ?c then 1 else _) = _ =>
      destruct c; [reflexivity | cbn [Z.b2z]; apply copy_errors_rest; lia]
  end.

(** The synchronisation slots once a first good entry exists, each with the
    test that sets it. *)
Lemma CheckEventErrors_synch_slots veto prev first (prevGoodEntry : Z)
    (ErrorVec : list Z) :
  GetEntry first <> -1 ->
  let E := (CheckEventErrors veto prev first prevGoodEntry ErrorVec).2 in
  let entry := GetEntry veto in
  let firstGoodEntry := GetEntry first in
  let SBCOffset := (GetTimeSBC first - GetTimeSec first)%float in
  let timeSBC := (GetTimeSBC veto - SBCOffset)%float in
  let prevtimeSBC := (GetTimeSBC prev - SBCOffset)%float in
  E !!! 18%nat =
    Z.b2z (Double.gt (GetTimeSec veto) 0 && Double.gt timeSBC 0 &&
           Double.ne SBCOffset 0 &&
           negb (GetError veto 1) && (firstGoodEntry <? entry) &&
           Double.gt (Double.fabs ((GetTimeSec veto - GetTimeSec prev)
                                   - (timeSBC - prevtimeSBC))%float) 2) /\
  E !!! 19%nat =
    Z.b2z ((GetSEC veto =? 0) && negb (entry =? 0) &&
           (firstGoodEntry <? entry)) /\
  E !!! 20%nat =
    Z.b2z ((entry - prevGoodEntry <? Z.abs (GetSEC veto - GetSEC prev)) &&
           (firstGoodEntry <? entry) && negb (GetSEC veto =? 0)) /\
  E !!! 21%nat =
    Z.b2z ((GetQEC veto =? 0) && negb (entry =? 0) &&
           (firstGoodEntry <? entry) && negb (GetError veto 1)) /\
  E !!! 22%nat =
    Z.b2z ((entry - prevGoodEntry <? Z.abs (GetQEC veto - GetQEC prev)) &&
           (firstGoodEntry <? entry) && negb (GetQEC veto =? 0)) /\
  E !!! 23%nat =
    Z.b2z ((GetQEC2 veto =? 0) && negb (entry =? 0) &&
           (firstGoodEntry <? entry) && negb (GetError veto 1)) /\
  E !!! 24%nat =
    Z.b2z ((entry - prevGoodEntry <? Z.abs (GetQEC2 veto - GetQEC2 prev)) &&
           (firstGoodEntry <? entry) && negb (GetQEC2 veto =? 0)).
Proof.
  intros Hfirst. unfold CheckEventErrors. cbv zeta.
  rewrite (proj2 (Z.eqb_neq _ _) Hfirst). cbn [snd].
  repeat split; synch_slot.
Qed.

(** The answer [skip] in terms of the flags of the event and of the
    synchronisation slots. *)
Lemma CheckEventErrors_skip_cases veto prev first (prevGoodEntry : Z)
    (ErrorVec : list Z) :
  let r := CheckEventErrors veto prev first prevGoodEntry ErrorVec in
  r.1 = true <->
  (exists q, q ∈ blocking_structural /\ GetError veto q = true) \/
  (exists q, (18 <= q < 25)%nat /\ r.2 !!! q = 1).
Proof.
  cbv zeta.
  assert (Hs : check_skip skip_structural (copy_errors veto (replicate 29 0))
                 (seq 0 18) false = true <->
               exists q, q ∈ blocking_structural /\ GetError veto q = true).
  { pose proof (structural_skip veto) as H. cbv zeta in H. rewrite H.
    split; intros (q & Hq & H1); exists q; (split; [exact Hq|]);
      pose proof (blocking_structural_lt q Hq) as Hlt;
      rewrite copy_errors_structural in * by exact Hlt.
    - destruct (GetError veto q); [reflexivity|discriminate].
    - now rewrite H1. }
  destruct (Z.eq_dec (GetEntry first) (-1)) as [Hfirst|Hfirst].
  - assert (Hz : forall q, (18 <= q < 25)%nat ->
      (CheckEventErrors veto prev first prevGoodEntry ErrorVec).2 !!! q = 0)
      by (intros q Hq; now apply CheckEventErrors_early_slots).
    destruct (CheckEventErrors_shape veto prev first prevGoodEntry ErrorVec)
      as (c18 & c19 & c20 & c21 & c22 & c23 & c24 & Heq).
    cbv zeta in Heq. rewrite Heq in *. rewrite Hfirst in *.
    cbn [Z.eqb fst snd Pos.eqb] in *. rewrite Hs. split.
    + intros H. now left.
    + intros [H|(q & Hq & H1)]; [exact H|]. rewrite Hz in H1 by exact Hq.
      discriminate.
  - destruct (CheckEventErrors_shape veto prev first prevGoodEntry ErrorVec)
      as (c18 & c19 & c20 & c21 & c22 & c23 & c24 & ->).
    cbv zeta. rewrite (proj2 (Z.eqb_neq _ _) Hfirst). cbn [fst snd].
    rewrite check_skip_true, Hs. split.
    + intros [H|(q & Hq & H1 & Hn)]; [now left|right].
      exists q. split; [now apply skip_synch_spec|exact H1].
    + intros [H|(q & Hq & H1)]; [now left|right].
      exists q. split; [apply elem_of_seq; lia|].
      split; [exact H1|]. now apply skip_synch_spec.
Qed.

End CheckEventErrors_slots.

(** The vector that [CheckEventErrors] hands back is a vector of flags, and
    its slots 26, 27 and 28, the run-level ones, are never set by it. *)
Theorem CheckEventErrors_flag_vector (veto prev first : MJVetoEvent)
    (prevGoodEntry : Z) (ErrorVec : list Z) :
  let E := (CheckEventErrors veto prev first prevGoodEntry ErrorVec).2 in
  (forall q : nat, (q < 29)%nat -> E !!! q = 0 \/ E !!! q = 1) /\
  (forall q : nat, (26 <= q < 29)%nat -> E !!! q = 0).
Proof.
  cbv zeta. split.
  - intros q Hq.
    apply (Forall_lookup_total_1 flag01);
      [apply CheckEventErrors_flags|].
    rewrite CheckEventErrors_length. exact Hq.
  - apply CheckEventErrors_late_slots.
Qed.

Lemma CheckEventErrors_flag_vector_witness :
  let E := (CheckEventErrors event7 event6 first_event 6 []).2 in
  (E !!! 5%nat = 0 \/ E !!! 5%nat = 1) /\ E !!! 27%nat = 0.
Proof.
  destruct (CheckEventErrors_flag_vector event7 event6 first_event 6 [])
    as [H01 H0].
  split; [apply H01; lia|apply H0; lia].
Defined.

(** An event at or before the first good entry raises none of the
    synchronisation slots 18 to 24, and is skipped exactly for one of its
    blocking structural flags. *)
Theorem CheckEventErrors_before_first_good (veto prev first : MJVetoEvent)
    (prevGoodEntry : Z) (ErrorVec : list Z) :
  GetEntry veto <= GetEntry first ->
  let r := CheckEventErrors veto prev first prevGoodEntry ErrorVec in
  (forall q : nat, (18 <= q < 25)%nat -> r.2 !!! q = 0) /\
  (r.1 = true <->
   exists q, q ∈ blocking_structural /\ GetError veto q = true).
Proof.
  intros Hle. cbv zeta.
  assert (Hz : forall q : nat, (18 <= q < 25)%nat ->
     (CheckEventErrors veto prev first prevGoodEntry ErrorVec).2 !!! q = 0).
  { intros q Hq.
    destruct (Z.eq_dec (GetEntry first) (-1)) as [Hfirst|Hfirst];
      [now apply CheckEventErrors_early_slots|].
    pose proof (CheckEventErrors_synch_slots veto prev first prevGoodEntry
                  ErrorVec Hfirst) as H.
    cbv zeta in H.
    assert (Hf : (GetEntry first <? GetEntry veto) = false)
      by (apply Z.ltb_ge; exact Hle).
    rewrite Hf in H. rewrite ?andb_false_r in H. cbn [andb Z.b2z] in H.
    destruct H as (H18 & H19 & H20 & H21 & H22 & H23 & H24).
    assert (Hc : (q = 18 \/ q = 19 \/ q = 20 \/ q = 21 \/ q = 22 \/ q = 23
                  \/ q = 24)%nat) by lia.
    destruct Hc as [-> | [-> | [-> | [-> | [-> | [-> | ->]]]]]]; assumption. }
  split; [exact Hz|].
  pose proof (CheckEventErrors_skip_cases veto prev first prevGoodEntry
                ErrorVec) as Hs.
  cbv zeta in Hs. rewrite Hs. split.
  - intros [H|(q & Hq & H1)]; [exact H|].
    rewrite Hz in H1 by exact Hq. discriminate.
  - intros H. now left.
Qed.

Lemma CheckEventErrors_before_first_good_witness :
  let r := CheckEventErrors first_event MJVetoEvent_default first_event 0 []
  in r.2 !!! 19%nat = 0 /\ r.2 !!! 20%nat = 0.
Proof.
  assert (Hle : GetEntry first_event <= GetEntry first_event)
    by (vm_compute; discriminate).
  destruct (CheckEventErrors_before_first_good first_event
              MJVetoEvent_default first_event 0 [] Hle) as [Hz _].
  split; apply Hz; lia.
Defined.

(** A counter is reported as reset or as jumped, never as both: of the slots
    19 and 20, 21 and 22, 23 and 24, at most one is set. *)
Theorem CheckEventErrors_reset_excludes_jump (veto prev first : MJVetoEvent)
    (prevGoodEntry : Z) (ErrorVec : list Z) :
  let E := (CheckEventErrors veto prev first prevGoodEntry ErrorVec).2 in
  ~ (E !!! 19%nat = 1 /\ E !!! 20%nat = 1) /\
  ~ (E !!! 21%nat = 1 /\ E !!! 22%nat = 1) /\
  ~ (E !!! 23%nat = 1 /\ E !!! 24%nat = 1).
Proof.
  cbv zeta.
  destruct (Z.eq_dec (GetEntry first) (-1)) as [Hfirst|Hfirst].
  - repeat split; intros [H _];
      rewrite CheckEventErrors_early_slots in H by (assumption || lia);
      discriminate.
  - pose proof (CheckEventErrors_synch_slots veto prev first prevGoodEntry
                  ErrorVec Hfirst) as H.
    cbv zeta in H. destruct H as (_ & H19 & H20 & H21 & H22 & H23 & H24).
    rewrite H19, H20, H21, H22, H23, H24.
    destruct (GetSEC veto =? 0), (GetQEC veto =? 0), (GetQEC2 veto =? 0);
      rewrite ?andb_false_r; cbn [andb negb Z.b2z];
      repeat split; intros [Ha Hb]; discriminate.
Qed.

(** Counters that are not zero and moved by no more than the entries passed
    since the previous event raise none of the slots 19 to 24. *)
Theorem CheckEventErrors_regular_counters (veto prev first : MJVetoEvent)
    (prevGoodEntry : Z) (ErrorVec : list Z) :
  GetSEC veto <> 0 -> GetQEC veto <> 0 -> GetQEC2 veto <> 0 ->
  Z.abs (GetSEC veto - GetSEC prev) <= GetEntry veto - prevGoodEntry ->
  Z.abs (GetQEC veto - GetQEC prev) <= GetEntry veto - prevGoodEntry ->
  Z.abs (GetQEC2 veto - GetQEC2 prev) <= GetEntry veto - prevGoodEntry ->
  forall q : nat, (19 <= q < 25)%nat ->
    (CheckEventErrors veto prev first prevGoodEntry ErrorVec).2 !!! q = 0.
Proof.
  intros HS HQ HQ2 HdS HdQ HdQ2 q Hq.
  destruct (Z.eq_dec (GetEntry first) (-1)) as [Hfirst|Hfirst];
    [apply CheckEventErrors_early_slots; [assumption|lia]|].
  pose proof (CheckEventErrors_synch_slots veto prev first prevGoodEntry
                ErrorVec Hfirst) as H.
  cbv zeta in H. destruct H as (_ & H19 & H20 & H21 & H22 & H23 & H24).
  apply Z.eqb_neq in HS, HQ, HQ2. rewrite HS, HQ, HQ2 in *.
  apply Z.ltb_ge in HdS, HdQ, HdQ2. rewrite HdS, HdQ, HdQ2 in *.
  cbn [andb Z.b2z] in *.
  assert (Hc : (q = 19 \/ q = 20 \/ q = 21 \/ q = 22 \/ q = 23
                \/ q = 24)%nat) by lia.
  destruct Hc as [-> | [-> | [-> | [-> | [-> | ->]]]]]; assumption.
Qed.

Lemma CheckEventErrors_regular_counters_witness :
  (CheckEventErrors event7 event6 first_event 6 []).2 !!! 20%nat = 0.
Proof.
  apply (CheckEventErrors_regular_counters event7 event6 first_event 6 []);
    try (vm_compute; discriminate); lia.
Defined.

(** An event whose flag 1 (missing channels) is raised is always skipped, and
    the tests of the slots 18, 21 and 23 are not applied to it. *)
Theorem CheckEventErrors_missing_channels (veto prev first : MJVetoEvent)
    (prevGoodEntry : Z) (ErrorVec : list Z) :
  GetError veto 1 = true ->
  let r := CheckEventErrors veto prev first prevGoodEntry ErrorVec in
  r.1 = true /\
  r.2 !!! 18%nat = 0 /\ r.2 !!! 21%nat = 0 /\ r.2 !!! 23%nat = 0.
Proof.
  intros H1. cbv zeta. split.
  - apply CheckEventErrors_skip_cases. left. exists 1%nat.
    split; [apply list_elem_of_here|exact H1].
  - destruct (Z.eq_dec (GetEntry first) (-1)) as [Hfirst|Hfirst].
    + repeat split; apply CheckEventErrors_early_slots; (assumption || lia).
    + pose proof (CheckEventErrors_synch_slots veto prev first prevGoodEntry
                    ErrorVec Hfirst) as H.
      cbv zeta in H. destruct H as (H18 & _ & _ & H21 & _ & H23 & _).
      rewrite H18, H21, H23, H1. cbn [negb].
      rewrite ?andb_false_r. cbn [andb Z.b2z]. repeat split.
Qed.

Lemma CheckEventErrors_missing_channels_witness :
  let r := CheckEventErrors event7_missing event6 first_event 6 [] in
  r.1 = true /\
  r.2 !!! 18%nat = 0 /\ r.2 !!! 21%nat = 0 /\ r.2 !!! 23%nat = 0.
Proof.
  exact (CheckEventErrors_missing_channels event7_missing event6 first_event
           6 [] eq_refl).
Defined.

(** ** The time of an event *)

(** [<] on doubles is asymmetric. *)
Lemma SFltb_asym (a b : spec_float) : SFltb a b = true -> SFltb b a = false.
Proof.
  unfold SFltb, SFcompare.
  destruct a as [s1|s1| |s1 m1 e1], b as [s2|s2| |s2 m2 e2];
    try destruct s1; try destruct s2; try discriminate; try reflexivity;
    pose proof (Z.compare_antisym e1 e2) as He;
    pose proof (Pos.compare_cont_antisym m2 m1 Eq) as Hm;
    cbn [CompOpp] in Hm;
    destruct (e1 ?= e2)%Z, (e2 ?= e1)%Z; try discriminate He;
    cbn [CompOpp]; try discriminate; try reflexivity;
    destruct (Pos.compare_cont Eq m1 m2), (Pos.compare_cont Eq m2 m1);
    try discriminate Hm; cbn [CompOpp]; try discriminate; reflexivity.
Qed.

Lemma ltb_asym (x y : float) :
  PrimFloat.ltb x y = true -> PrimFloat.ltb y x = false.
Proof. rewrite !ltb_spec. apply SFltb_asym. Qed.

(** Whenever [CheckEventErrors] sets slot 25 for an event, the third loop
    takes the time of that event from [InterpTime] and marks it
    approximate. *)
Theorem slot25_means_interpolated (veto prev first : MJVetoEvent)
    (prevGoodEntry : Z) (ErrorVec : list Z) (run i : Z)
    (SBCOffset timeSBC : float) (EntryTime EntryNum : list float)
    (BadScalers : list bool) :
  GetRun veto = run ->
  (CheckEventErrors veto prev first prevGoodEntry ErrorVec).2 !!! 25%nat = 1 ->
  FindEventTime veto run i SBCOffset timeSBC EntryTime EntryNum BadScalers
  = (InterpTime i EntryTime EntryNum BadScalers, timeSBC, true).
Proof.
  intros Hrun H25.
  destruct (CheckEventErrors_late_slots veto prev first prevGoodEntry
              ErrorVec) as [_ Hs].
  rewrite Hs in H25. unfold interp_flag in H25.
  destruct (GetBadScaler veto) eqn:Hbad; [|discriminate].
  cbn [andb] in H25.
  destruct ((GetRun veto <? 8557)
            || Double.gt (GetTimeSBC veto) 2000000000) eqn:Hc;
    [|discriminate].
  unfold FindEventTime. cbv zeta. rewrite Hbad. cbn [negb].
  apply orb_true_iff in Hc as [Hlt|Hgt].
  - apply Z.ltb_lt in Hlt.
    assert (Hf : (8557 <? run) = false) by (apply Z.ltb_ge; lia).
    rewrite Hf. reflexivity.
  - unfold Double.gt in Hgt. apply ltb_asym in Hgt. rewrite Hgt.
    rewrite andb_false_r. reflexivity.
Qed.

Lemma slot25_means_interpolated_witness :
  FindEventTime bad_scaler_event 0 0 0%float 0%float [] [] []
  = (InterpTime 0 [] [] [], 0%float, true).
Proof.
  exact (slot25_means_interpolated bad_scaler_event MJVetoEvent_default
           MJVetoEvent_default 0 [] 0 0 0%float 0%float [] [] []
           eq_refl eq_refl).
Defined.

(** The run 8557 is on neither side: a bad-scaler event of that run whose
    SBC time is not above 2000000000 gets an interpolated time, and slot 25
    is not set for it. *)
Theorem run_8557_interpolated_unflagged (veto prev first : MJVetoEvent)
    (prevGoodEntry : Z) (ErrorVec : list Z) (i : Z)
    (SBCOffset timeSBC : float) (EntryTime EntryNum : list float)
    (BadScalers : list bool) :
  GetRun veto = 8557 -> GetBadScaler veto = true ->
  Double.gt (GetTimeSBC veto) 2000000000%float = false ->
  (CheckEventErrors veto prev first prevGoodEntry ErrorVec).2 !!! 25%nat = 0 /\
  FindEventTime veto 8557 i SBCOffset timeSBC EntryTime EntryNum BadScalers
  = (InterpTime i EntryTime EntryNum BadScalers, timeSBC, true).
Proof.
  intros Hrun Hbad Hgt. split.
  - destruct (CheckEventErrors_late_slots veto prev first prevGoodEntry
                ErrorVec) as [_ ->].
    unfold interp_flag. rewrite Hrun, Hbad, Hgt. reflexivity.
  - unfold FindEventTime. cbv zeta. rewrite Hbad. reflexivity.
Qed.

Lemma run_8557_interpolated_unflagged_witness :
  (CheckEventErrors event_8557 event6 first_event 6 []).2 !!! 25%nat = 0 /\
  FindEventTime event_8557 8557 7 1000%float 0%float sample_times
                sample_entries sample_badScaler
  = (InterpTime 7 sample_times sample_entries sample_badScaler,
     0%float, true).
Proof.
  exact (run_8557_interpolated_unflagged event_8557 event6 first_event 6 []
           7 1000%float 0%float sample_times sample_entries sample_badScaler
           eq_refl eq_refl eq_refl).
Defined.

(** The scaler jump handling: a desynch (slot 18) makes the time
    approximate; the jump flag does not outlive an iteration whose
    [TSdifference] is below a millisecond, even one that has just raised it;
    and with no desynch and no jump in progress the time and its mark pass
    through unchanged. *)
Theorem ScalerJump_flags (veto : MJVetoEvent) (EventError : list Z)
    (xTime timeSBC TSdifference : float) (ApproxTime foundScalerJump : bool) :
  let '(xTime', ApproxTime', foundScalerJump', _) :=
    ScalerJump veto EventError xTime timeSBC TSdifference ApproxTime
               foundScalerJump in
  (EventError !!! 18%nat <> 0 -> ApproxTime' = true) /\
  (PrimFloat.ltb (Double.fabs TSdifference) millisecond = true ->
   foundScalerJump' = false) /\
  (EventError !!! 18%nat = 0 -> foundScalerJump = false ->
   xTime' = xTime /\ ApproxTime' = ApproxTime /\ foundScalerJump' = false).
Proof.
  unfold ScalerJump. cbv zeta.
  destruct (Z.eqb_spec (EventError !!! 18%nat) 0) as [H18|H18];
    cbn [negb]; destruct foundScalerJump;
    destruct (PrimFloat.ltb (Double.fabs TSdifference) millisecond);
    repeat split; intros; try reflexivity; try contradiction;
    try discriminate.
Qed.

Lemma ScalerJump_flags_witness :
  let '(xTime', ApproxTime', foundScalerJump', _) :=
    ScalerJump event7 (<[18%nat := 1]> (replicate 29 0)) 17%float 17%float
               0%float false false in
  ApproxTime' = true /\ foundScalerJump' = false.
Proof.
  pose proof (ScalerJump_flags event7 (<[18%nat := 1]> (replicate 29 0))
                17%float 17%float 0%float false false) as H.
  destruct (ScalerJump event7 (<[18%nat := 1]> (replicate 29 0)) 17%float
              17%float 0%float false false) as [[[x a] f] d].
  destruct H as (Ha & Hf & _).
  split; [apply Ha; vm_compute; discriminate|apply Hf; reflexivity].
Defined.

(** ** Interpolated times, the other cases *)

Lemma scan_upper_none (times : list float) (badScaler : list bool)
    (n k : nat) (upper : float) :
  nearest_valid_from badScaler n k = None ->
  scan_upper times badScaler n k upper = upper.
Proof.
  revert k. induction n as [|n IH]; intros k; simpl; [reflexivity|].
  destruct (negb (badScaler !!! k)); [discriminate|]. apply IH.
Qed.

Lemma scan_lower_none (times : list float) (badScaler : list bool)
    (j : nat) (lower : float) :
  nearest_valid_before badScaler (S j) = None ->
  scan_lower times badScaler j lower = lower.
Proof.
  induction j as [|j IH]; intros Hn; [reflexivity|].
  cbn [nearest_valid_before] in Hn. cbn [scan_lower].
  destruct (negb (badScaler !!! S j)); [discriminate|]. now apply IH.
Qed.

(** For an entry with a bad scaler, [InterpTime] returns half the sum of two
    bounds: the time of the nearest later entry with a good scaler, or 0 when
    there is none, and the time of the nearest earlier one, or 0 when there
    is none or when it is entry 0. *)
Theorem InterpTime_bad_entry (times entries : list float)
    (badScaler : list bool) (e : nat) :
  length times = length entries -> length times = length badScaler ->
  (e < length badScaler)%nat -> badScaler !!! e = true ->
  let upper := match nearest_valid_after badScaler e with
               | Some b => times !!! b
               | None => 0%float
               end in
  let lower := match nearest_valid_before badScaler e with
               | Some (S a) => times !!! S a
               | _ => 0%float
               end in
  InterpTime (Z.of_nat e) times entries badScaler
  = Some ((upper + lower) / 2)%float.
Proof.
  intros Hte Htb He Hbad. cbv zeta. unfold InterpTime.
  rewrite <- Hte, <- Htb, !Nat.eqb_refl. cbn [negb orb].
  destruct (Z.ltb_spec (Z.of_nat e) 0); [lia|].
  destruct (Z.leb_spec (Z.of_nat (length times)) (Z.of_nat e)); [lia|].
  cbn [orb]. rewrite Nat2Z.id, Hbad. cbn [negb].
  assert (Hup : scan_upper times badScaler (length times - e) e 0
                = match nearest_valid_after badScaler e with
                  | Some b => times !!! b
                  | None => 0%float
                  end).
  { replace (length times - e)%nat with (S (length badScaler - S e)) by lia.
    cbn [scan_upper]. rewrite Hbad. cbn [negb].
    unfold nearest_valid_after.
    destruct (nearest_valid_from badScaler (length badScaler - S e) (S e))
      as [b|] eqn:Hb.
    - now apply scan_upper_nearest.
    - now apply scan_upper_none. }
  assert (Hlo : scan_lower times badScaler e 0
                = match nearest_valid_before badScaler e with
                  | Some (S a) => times !!! S a
                  | _ => 0%float
                  end).
  { destruct e as [|e]; [reflexivity|].
    cbn [scan_lower]. rewrite Hbad. cbn [negb].
    destruct (nearest_valid_before badScaler (S e)) as [[|a]|] eqn:Ha.
    - now apply scan_lower_first.
    - apply scan_lower_nearest; [exact Ha|lia].
    - now apply scan_lower_none. }
  rewrite Hup, Hlo. reflexivity.
Qed.

Lemma InterpTime_bad_entry_witness :
  InterpTime (Z.of_nat 2) sample_times sample_entries tail_badScaler
  = Some ((0 + sample_times !!! 1%nat) / 2)%float.
Proof.
  apply (InterpTime_bad_entry sample_times sample_entries tail_badScaler 2);
    try reflexivity; simpl; lia.
Defined.

(** The two ways around the interpolation: vectors of different sizes give
    -1, whatever the entry, and an entry with a good scaler gets its own
    time back. *)
Theorem InterpTime_direct (entry : Z) (times entries : list float)
    (badScaler : list bool) :
  (length times <> length entries \/ length times <> length badScaler ->
   InterpTime entry times entries badScaler = Some (-1)%float) /\
  (length times = length entries -> length times = length badScaler ->
   0 <= entry < Z.of_nat (length badScaler) ->
   badScaler !!! Z.to_nat entry = false ->
   InterpTime entry times entries badScaler
   = Some (times !!! Z.to_nat entry)).
Proof.
  unfold InterpTime. split.
  - intros [H|H]; apply Nat.eqb_neq in H; rewrite H; cbn [negb orb];
      [reflexivity|]. now rewrite orb_true_r.
  - intros Hte Htb He Hgood.
    rewrite <- Hte, <- Htb, !Nat.eqb_refl. cbn [negb orb].
    destruct (Z.ltb_spec entry 0); [lia|].
    destruct (Z.leb_spec (Z.of_nat (length times)) entry); [lia|].
    cbn [orb]. rewrite Hgood. reflexivity.
Qed.

Lemma InterpTime_direct_witness :
  InterpTime 1 sample_times [] sample_badScaler = Some (-1)%float /\
  InterpTime 1 sample_times sample_entries sample_badScaler
  = Some (sample_times !!! Z.to_nat 1).
Proof.
  destruct (InterpTime_direct 1 sample_times [] sample_badScaler)
    as [Hm _].
  destruct (InterpTime_direct 1 sample_times sample_entries sample_badScaler)
    as [_ Hg].
  split; [apply Hm; left; discriminate|].
  apply Hg; try reflexivity. simpl. lia.
Defined.

(** ** The hit pattern *)

Section HitPattern_facts.

Variable veto : MJVetoEvent.

Lemma tally_le_length (P : nat -> bool) (l : list nat) :
  tally P l 0 <= Z.of_nat (length l).
Proof.
  induction l as [|a l IH]; [reflexivity|].
  rewrite tally_cons. cbn [length]. destruct (P a); lia.
Qed.

Lemma tally_ext (P Q : nat -> bool) (l : list nat) :
  (forall x, x ∈ l -> P x = Q x) -> tally P l 0 = tally Q l 0.
Proof.
  induction l as [|a l IH]; intros H; [reflexivity|].
  rewrite !tally_cons, (H a) by apply list_elem_of_here.
  rewrite IH; [reflexivity|]. intros x Hx. apply H.
  now apply list_elem_of_further.
Qed.

Lemma plane_of_channel (c : nat) :
  (c < 32)%nat ->
  (plane_of c < 12)%nat /\ PanelMap (Z.of_nat c) 0 = Z.of_nat (plane_of c).
Proof.
  intros Hc.
  do 32 (destruct c as [|c];
         [vm_compute; split; [lia|reflexivity]|]).
  lia.
Qed.

Lemma map_hit_plane (st : list Z * list Z) (c : nat) :
  (c < 32)%nat ->
  map_hit veto st c
  = if channel_hit veto c then hit_plane (plane_of c) st else st.
Proof.
  intros Hc. unfold map_hit, channel_hit.
  destruct (GetSWThresh veto c <? GetQDC veto c); [|reflexivity].
  do 32 (destruct c as [|c]; [reflexivity|]). lia.
Qed.

(** The planes after the channels of [l] have been mapped. *)
Lemma hits_fold (l : list nat) (PlaneTrue PlaneHits : list Z) :
  Forall (fun c => (c < 32)%nat) l ->
  let r := foldl (map_hit veto) (PlaneTrue, PlaneHits) l in
  length r.1 = length PlaneTrue /\ length r.2 = length PlaneHits /\
  forall p : nat,
    let on_p := fun c => channel_hit veto c && (plane_of c =? p)%nat in
    ((p < length PlaneTrue)%nat ->
     r.1 !!! p = if existsb on_p l then 1 else PlaneTrue !!! p) /\
    ((p < length PlaneHits)%nat ->
     r.2 !!! p = PlaneHits !!! p + tally on_p l 0).
Proof.
  revert PlaneTrue PlaneHits.
  induction l as [|a l IH]; intros PT PH Hl; cbv zeta.
  - cbn [foldl fst snd existsb]. repeat split; intros; try reflexivity.
    change (tally _ [] 0) with 0. lia.
  - apply Forall_cons in Hl as [Ha Hl]. cbn [foldl].
    rewrite (map_hit_plane _ a Ha).
    destruct (channel_hit veto a) eqn:Hhit.
    + unfold hit_plane.
      specialize (IH (<[plane_of a := 1]> PT)
                     (<[plane_of a := PH !!! plane_of a + 1]> PH) Hl).
      cbv zeta in IH. destruct IH as (HL1 & HL2 & IH).
      rewrite length_insert in HL1, HL2.
      split; [exact HL1|]. split; [exact HL2|]. intros p.
      rewrite tally_cons, Hhit.
      destruct (IH p) as [IH1 IH2]. rewrite !length_insert in IH1, IH2.
      cbn [existsb andb]. rewrite Hhit. cbn [andb].
      destruct (Nat.eqb_spec (plane_of a) p) as [Heq|Hne];
        [rewrite Heq in *|]; cbn [orb]; split.
      * intros Hp. rewrite (IH1 Hp).
        rewrite list_lookup_total_insert_eq by exact Hp.
        now destruct (existsb _ l).
      * intros Hp. rewrite (IH2 Hp).
        rewrite list_lookup_total_insert_eq by exact Hp. lia.
      * intros Hp. rewrite (IH1 Hp).
        now rewrite list_lookup_total_insert_ne by exact Hne.
      * intros Hp. rewrite (IH2 Hp).
        rewrite list_lookup_total_insert_ne by exact Hne. lia.
    + specialize (IH PT PH Hl). cbv zeta in IH.
      destruct IH as (HL1 & HL2 & IH).
      split; [exact HL1|]. split; [exact HL2|]. intros p.
      rewrite tally_cons, Hhit.
      destruct (IH p) as [IH1 IH2]. cbn [existsb]. rewrite Hhit.
      cbn [andb orb]. split.
      * exact IH1.
      * intros Hp. rewrite (IH2 Hp). lia.
Qed.

End HitPattern_facts.

Lemma clear_planes (PlaneTrue PlaneHits : list Z) :
  length PlaneTrue = 32%nat -> length PlaneHits = 32%nat ->
  foldl (fun st k => (<[k := 0]> (fst st), <[k := 0]> (snd st)))
        (PlaneTrue, PlaneHits) (seq 0 12)
  = (replicate 12 0 ++ drop 12 PlaneTrue,
     replicate 12 0 ++ drop 12 PlaneHits).
Proof.
  intros H1 H2.
  do 33 (destruct PlaneTrue as [|? PlaneTrue]; try discriminate H1).
  do 33 (destruct PlaneHits as [|? PlaneHits]; try discriminate H2).
  reflexivity.
Qed.

Lemma cleared_lookup (v : list Z) (p : nat) :
  length v = 32%nat ->
  length (replicate 12 0 ++ drop 12 v) = 32%nat /\
  ((p < 12)%nat -> (replicate 12 0 ++ drop 12 v) !!! p = 0) /\
  ((12 <= p)%nat -> (replicate 12 0 ++ drop 12 v) !!! p = v !!! p).
Proof.
  intros Hv. split; [|split].
  - rewrite length_app, length_replicate, length_drop. lia.
  - intros Hp. rewrite lookup_total_app_l by (rewrite length_replicate; lia).
    now apply lookup_total_replicate_2.
  - intros Hp. rewrite lookup_total_app_r by (rewrite length_replicate; lia).
    rewrite length_replicate, lookup_total_drop. f_equal. lia.
Qed.

Lemma existsb_on_plane (veto : MJVetoEvent) (p : nat) :
  existsb (fun c => channel_hit veto c && (plane_of c =? p)%nat) (seq 0 32)
  = true <->
  exists c : nat, (c < 32)%nat /\ GetSWThresh veto c < GetQDC veto c /\
                  PanelMap (Z.of_nat c) 0 = Z.of_nat p.
Proof.
  rewrite existsb_exists. split.
  - intros (c & Hc & H). apply list_elem_of_In, elem_of_seq in Hc.
    apply andb_true_iff in H as [Hh Hp]. apply Nat.eqb_eq in Hp.
    exists c. split; [lia|]. split; [now apply Z.ltb_lt|].
    destruct (plane_of_channel c ltac:(lia)) as [_ ->]. now rewrite Hp.
  - intros (c & Hc & Hh & Hp). exists c.
    split; [apply list_elem_of_In, elem_of_seq; lia|].
    apply andb_true_iff. split; [now apply Z.ltb_lt|].
    apply Nat.eqb_eq. destruct (plane_of_channel c Hc) as [_ Hm]. lia.
Qed.

(** The result of the hit-pattern block in terms of the fold over the
    channels. *)
Lemma HitPattern_fold (veto : MJVetoEvent) (PlaneTrue PlaneHits : list Z) :
  length PlaneTrue = 32%nat -> length PlaneHits = 32%nat ->
  exists PT' PH' : list Z,
    HitPattern veto PlaneTrue PlaneHits
    = (PT', PH', tally (fun p => negb (PT' !!! p =? 0)) (seq 0 12) 0) /\
    forall p : nat,
      let on_p := fun c => channel_hit veto c && (plane_of c =? p)%nat in
      ((p < 12)%nat ->
       PT' !!! p = (if existsb on_p (seq 0 32) then 1 else 0) /\
       PH' !!! p = tally on_p (seq 0 32) 0) /\
      ((12 <= p < 32)%nat ->
       PT' !!! p = PlaneTrue !!! p /\ PH' !!! p = PlaneHits !!! p).
Proof.
  intros H1 H2. unfold HitPattern. rewrite (clear_planes _ _ H1 H2).
  assert (Hall : Forall (fun c => (c < 32)%nat) (seq 0 32)).
  { apply Forall_forall. intros c Hc. apply elem_of_seq in Hc. lia. }
  pose proof (hits_fold veto (seq 0 32) (replicate 12 0 ++ drop 12 PlaneTrue)
                (replicate 12 0 ++ drop 12 PlaneHits) Hall) as Hf.
  cbv zeta in Hf.
  destruct (foldl (map_hit veto)
              (replicate 12 0 ++ drop 12 PlaneTrue,
               replicate 12 0 ++ drop 12 PlaneHits) (seq 0 32))
    as [PT' PH'].
  cbn [fst snd] in Hf. destruct Hf as (_ & _ & Hf).
  exists PT', PH'. split; [reflexivity|]. intros p. cbv zeta.
  destruct (Hf p) as [HT HH].
  destruct (cleared_lookup PlaneTrue p H1) as (LT & ZT & KT).
  destruct (cleared_lookup PlaneHits p H2) as (LH & ZH & KH).
  rewrite LT in HT. rewrite LH in HH. split.
  - intros Hp. specialize (HT ltac:(lia)). specialize (HH ltac:(lia)).
    rewrite (ZT Hp) in HT. rewrite (ZH Hp) in HH.
    split; [exact HT|]. rewrite HH. apply Z.add_0_l.
  - intros Hp. specialize (HT ltac:(lia)). specialize (HH ltac:(lia)).
    rewrite KT in HT by lia. rewrite KH in HH by lia.
    assert (Hno : forall c, c ∈ seq 0 32 ->
                    channel_hit veto c && (plane_of c =? p)%nat = false).
    { intros c Hc. apply elem_of_seq in Hc.
      destruct (plane_of_channel c ltac:(lia)) as [Hlt _].
      destruct (Nat.eqb_spec (plane_of c) p) as [Heq|Hne]; [lia|].
      apply andb_false_r. }
    assert (He : existsb (fun c => channel_hit veto c
                                   && (plane_of c =? p)%nat) (seq 0 32)
                 = false).
    { apply not_true_is_false. intros He. apply existsb_exists in He.
      destruct He as (c & Hc & H). apply list_elem_of_In in Hc.
      rewrite (Hno c Hc) in H. discriminate. }
    assert (Ht : tally (fun c => channel_hit veto c
                                 && (plane_of c =? p)%nat) (seq 0 32) 0 = 0).
    { rewrite (tally_ext _ (fun _ => false) _ Hno).
      clear. generalize (seq 0 32). intros l.
      induction l as [|a l IH]; [reflexivity|]. now rewrite tally_cons. }
    rewrite He in HT. rewrite Ht in HH. split; [exact HT|lia].
Qed.

(** The hit pattern of an event.  For each plane 0..11, [PlaneTrue] is 1 if
    a channel of that plane is above its threshold and 0 otherwise, and
    [PlaneHits] counts these channels; the slots 12..31 of the two vectors
    keep what they held. *)
Theorem HitPattern_planes (veto : MJVetoEvent)
    (PlaneTrue PlaneHits : list Z) :
  length PlaneTrue = 32%nat -> length PlaneHits = 32%nat ->
  let '(PlaneTrue', PlaneHits', _) := HitPattern veto PlaneTrue PlaneHits in
  (forall p : nat, (p < 12)%nat ->
     (PlaneTrue' !!! p = 0 \/ PlaneTrue' !!! p = 1) /\
     (PlaneTrue' !!! p = 1 <->
      exists c : nat, (c < 32)%nat /\ GetSWThresh veto c < GetQDC veto c /\
                      PanelMap (Z.of_nat c) 0 = Z.of_nat p) /\
     PlaneHits' !!! p
     = tally (fun c => (GetSWThresh veto c <? GetQDC veto c) &&
                       (PanelMap (Z.of_nat c) 0 =? Z.of_nat p))
             (seq 0 32) 0) /\
  (forall p : nat, (12 <= p < 32)%nat ->
     PlaneTrue' !!! p = PlaneTrue !!! p /\
     PlaneHits' !!! p = PlaneHits !!! p).
Proof.
  intros H1 H2.
  destruct (HitPattern_fold veto PlaneTrue PlaneHits H1 H2)
    as (PT' & PH' & -> & Hf).
  split.
  - intros p Hp. destruct (Hf p) as [[HT HH] _]; [exact Hp|].
    pose proof (existsb_on_plane veto p) as He.
    split; [|split].
    + rewrite HT. destruct (existsb _ (seq 0 32)); auto.
    + rewrite <- He, HT.
      destruct (existsb _ (seq 0 32)); split; intros Hx;
        try reflexivity; discriminate Hx.
    + rewrite HH. apply tally_ext. intros c Hc.
      apply elem_of_seq in Hc. unfold channel_hit. f_equal.
      destruct (plane_of_channel c ltac:(lia)) as [_ ->].
      destruct (Nat.eqb_spec (plane_of c) p) as [->|Hne].
      * symmetry. apply Z.eqb_refl.
      * symmetry. apply Z.eqb_neq. lia.
  - intros p Hp. now apply (Hf p).
Qed.

Lemma HitPattern_planes_witness :
  let '(PlaneTrue', PlaneHits', _) :=
    HitPattern bottom_event (replicate 32 7) (replicate 32 7) in
  PlaneTrue' !!! 1%nat = 1 /\ PlaneTrue' !!! 20%nat = 7.
Proof.
  pose proof (HitPattern_planes bottom_event (replicate 32 7)
                (replicate 32 7) eq_refl eq_refl) as H.
  destruct (HitPattern bottom_event (replicate 32 7) (replicate 32 7))
    as [[PT PH] n].
  destruct H as [Hlow Hhigh]. split.
  - apply (Hlow 1%nat ltac:(lia)). exists 7%nat.
    split; [lia|]. split; vm_compute; reflexivity.
  - apply (Hhigh 20%nat ltac:(lia)).
Defined.

(** The number of planes hit lies between 0 and 12, it counts the planes
    with a channel above threshold, and it is 0 exactly when no channel of
    the event is above its threshold. *)
Theorem HitPattern_count (veto : MJVetoEvent)
    (PlaneTrue PlaneHits : list Z) :
  length PlaneTrue = 32%nat -> length PlaneHits = 32%nat ->
  let '(PlaneTrue', _, PlaneHitCount) :=
    HitPattern veto PlaneTrue PlaneHits in
  0 <= PlaneHitCount <= 12 /\
  PlaneHitCount
  = tally (fun p => negb (PlaneTrue' !!! p =? 0)) (seq 0 12) 0 /\
  (PlaneHitCount = 0 <->
   forall c : nat, (c < 32)%nat -> GetQDC veto c <= GetSWThresh veto c).
Proof.
  intros H1 H2.
  destruct (HitPattern_fold veto PlaneTrue PlaneHits H1 H2)
    as (PT' & PH' & -> & Hf).
  split; [|split; [reflexivity|]].
  - split; [apply tally_nonneg|]. apply (tally_le_length _ (seq 0 12)).
  - split.
    + intros Hz c Hc.
      destruct (Z.le_gt_cases (GetQDC veto c) (GetSWThresh veto c))
        as [Hle|Hgt]; [exact Hle|exfalso].
      destruct (plane_of_channel c Hc) as [Hpl Hmap].
      destruct (Hf (plane_of c)) as [[HT _] _]; [exact Hpl|].
      assert (He : existsb (fun c' => channel_hit veto c'
                              && (plane_of c' =? plane_of c)%nat) (seq 0 32)
                   = true).
      { apply existsb_on_plane. exists c.
        split; [exact Hc|]. split; [lia|exact Hmap]. }
      rewrite He in HT.
      assert (1 <= tally (fun p => negb (PT' !!! p =? 0)) (seq 0 12) 0).
      { apply tally_one. exists (plane_of c).
        split; [apply elem_of_seq; lia|]. now rewrite HT. }
      lia.
    + intros Hno.
      pose proof (tally_nonneg (fun p => negb (PT' !!! p =? 0)) (seq 0 12)).
      destruct (Z.eq_dec (tally (fun p => negb (PT' !!! p =? 0))
                                (seq 0 12) 0) 0) as [Hz|Hnz]; [exact Hz|].
      assert (Hge : 1 <= tally (fun p => negb (PT' !!! p =? 0))
                               (seq 0 12) 0) by lia.
      apply tally_one in Hge as (p & Hp & Hon). apply elem_of_seq in Hp.
      destruct (Hf p) as [[HT _] _]; [lia|].
      destruct (existsb (fun c => channel_hit veto c
                           && (plane_of c =? p)%nat) (seq 0 32)) eqn:He.
      * apply existsb_on_plane in He as (c & Hc & Hgt & _).
        specialize (Hno c Hc). lia.
      * rewrite HT in Hon. discriminate.
Qed.

Lemma HitPattern_count_witness :
  let '(PlaneTrue', _, PlaneHitCount) :=
    HitPattern bottom_event (replicate 32 0) (replicate 32 0) in
  0 <= PlaneHitCount <= 12.
Proof.
  pose proof (HitPattern_count bottom_event (replicate 32 0)
                (replicate 32 0) eq_refl eq_refl) as H.
  destruct (HitPattern bottom_event (replicate 32 0) (replicate 32 0))
    as [[PT PH] n].
  apply H.
Defined.

(** ** The coincidence types, in full *)

(** The type that the muon identification ends with, as a table: 4 when the
    bottom and the top pair are hit, else 2 when the bottom pair and a
    lateral pair are, else 3 when the top pair and a lateral pair are, else
    0; no type when a cut fails.  Type 1 is never the result. *)
Theorem MuonID_type_table (TimeCut EnergyCut : bool)
    (PlaneTrue CoinType0 : list Z) :
  hitType (MuonID TimeCut EnergyCut PlaneTrue CoinType0) =
  if TimeCut && EnergyCut then
    Some (if bottom_pair PlaneTrue && top_pair PlaneTrue then 4
          else if bottom_pair PlaneTrue && lateral_pair PlaneTrue then 2
          else if top_pair PlaneTrue && lateral_pair PlaneTrue then 3
          else 0)
  else None.
Proof.
  unfold MuonID, bottom_pair, top_pair, lateral_pair. cbv zeta.
  destruct (TimeCut && EnergyCut); [|reflexivity].
  generalize (negb (PlaneTrue !!! 0%nat =? 0)); intros p0.
  generalize (negb (PlaneTrue !!! 1%nat =? 0)); intros p1.
  generalize (negb (PlaneTrue !!! 2%nat =? 0)); intros p2.
  generalize (negb (PlaneTrue !!! 3%nat =? 0)); intros p3.
  generalize (negb (PlaneTrue !!! 4%nat =? 0)
              && negb (PlaneTrue !!! 5%nat =? 0)); intros n.
  generalize (negb (PlaneTrue !!! 6%nat =? 0)
              && negb (PlaneTrue !!! 7%nat =? 0)); intros s.
  generalize (negb (PlaneTrue !!! 8%nat =? 0)
              && negb (PlaneTrue !!! 9%nat =? 0)); intros w.
  generalize (negb (PlaneTrue !!! 10%nat =? 0)
              && negb (PlaneTrue !!! 11%nat =? 0)); intros e.
  destruct p0, p1, p2, p3, n, s, w, e; reflexivity.
Qed.

(** The vector [CoinType] after the muon identification: slot 0 tells that
    both cuts passed, the slots 1, 2 and 3 the three pattern tests, and all
    the other slots are 0, whatever the vector held before. *)
Theorem MuonID_CoinType (TimeCut EnergyCut : bool)
    (PlaneTrue CoinType0 : list Z) :
  length CoinType0 = 32%nat ->
  let cuts := TimeCut && EnergyCut in
  let B := bottom_pair PlaneTrue in
  let T := top_pair PlaneTrue in
  let L := lateral_pair PlaneTrue in
  CoinType (MuonID TimeCut EnergyCut PlaneTrue CoinType0) =
  [Z.b2z cuts; Z.b2z (cuts && B && T); Z.b2z (cuts && B && (T || L));
   Z.b2z (cuts && T && L)] ++ replicate 28 0.
Proof.
  intros Hlen.
  do 33 (destruct CoinType0 as [|? CoinType0]; try discriminate Hlen).
  unfold MuonID, bottom_pair, top_pair, lateral_pair. cbv zeta.
  destruct (TimeCut && EnergyCut); [|reflexivity].
  generalize (negb (PlaneTrue !!! 0%nat =? 0)); intros p0.
  generalize (negb (PlaneTrue !!! 1%nat =? 0)); intros p1.
  generalize (negb (PlaneTrue !!! 2%nat =? 0)); intros p2.
  generalize (negb (PlaneTrue !!! 3%nat =? 0)); intros p3.
  generalize (negb (PlaneTrue !!! 4%nat =? 0)
              && negb (PlaneTrue !!! 5%nat =? 0)); intros n.
  generalize (negb (PlaneTrue !!! 6%nat =? 0)
              && negb (PlaneTrue !!! 7%nat =? 0)); intros s.
  generalize (negb (PlaneTrue !!! 8%nat =? 0)
              && negb (PlaneTrue !!! 9%nat =? 0)); intros w.
  generalize (negb (PlaneTrue !!! 10%nat =? 0)
              && negb (PlaneTrue !!! 11%nat =? 0)); intros e.
  destruct p0, p1, p2, p3, n, s, w, e; reflexivity.
Qed.

Lemma MuonID_CoinType_witness :
  CoinType (MuonID true true vertical_hit (replicate 32 9)) =
  [1; 1; 1; 0] ++ replicate 28 0.
Proof.
  exact (MuonID_CoinType true true vertical_hit (replicate 32 9) eq_refl).
Defined.

(** ** The time cut *)

(** An event passes the time cut when the LED is flagged off or its
    multiplicity is below the threshold; the threshold is the highest
    multiplicity less 5, and not below 0, so that in a run whose highest
    multiplicity is 5 or less no event passes while the LED is on. *)
Theorem TimeCut_threshold (veto : MJVetoEvent) (highestMultip : Z)
    (ErrorCount : list Z) :
  let multipThreshold := multipThreshold_of highestMultip in
  multipThreshold = Z.max 0 (highestMultip - 5) /\
  (TimeCut veto multipThreshold ErrorCount = true <->
   ErrorCount !!! 25%nat <> 0 \/ GetMultip veto < multipThreshold) /\
  (ErrorCount !!! 25%nat = 0 -> 0 <= GetMultip veto -> highestMultip <= 5 ->
   TimeCut veto multipThreshold ErrorCount = false).
Proof.
  cbv zeta.
  assert (Hm : multipThreshold_of highestMultip = Z.max 0 (highestMultip - 5)).
  { unfold multipThreshold_of, LEDMultipThreshold. cbv zeta.
    destruct (Z.ltb_spec (highestMultip - 5) 0); lia. }
  split; [exact Hm|]. rewrite Hm. unfold TimeCut. cbv zeta.
  destruct (Z.eqb_spec (ErrorCount !!! 25%nat) 0) as [H0|H0];
    destruct (Z.ltb_spec (GetMultip veto) (Z.max 0 (highestMultip - 5)))
      as [Hlt|Hge];
    cbn [negb andb].
  - split; [|intros _ Hpos Hh; lia].
    split; [intros _; now right|reflexivity].
  - split; [|reflexivity].
    split; [discriminate|]. intros [Hc|Hc]; [contradiction|lia].
  - split; [|intros Hc; contradiction].
    split; [intros _; now left|reflexivity].
  - split; [|intros Hc; contradiction].
    split; [intros _; now left|reflexivity].
Qed.

Lemma TimeCut_threshold_witness :
  TimeCut bottom_event (multipThreshold_of 4) (replicate 29 0) = false.
Proof.
  apply (TimeCut_threshold bottom_event 4 (replicate 29 0));
    [reflexivity|vm_compute; discriminate|lia].
Defined.

(** ** The run-level checks *)

(** A run without delta-T entries, or whose frequency is already marked
    bad, always ends with the bad-frequency flag raised and with slot 25 set
    and counted; without delta-T entries the frequency and its RMS are
    9999. *)
Theorem LEDCheck_bad_frequency (dtEntries : Z) (hRMS hMean : float)
    (vEntries simpleLEDCount : Z) (duration : float) (badLEDFreq0 : bool)
    (ErrorCount0 EventError0 : list Z) :
  length ErrorCount0 = 29%nat -> length EventError0 = 29%nat ->
  dtEntries <= 0 \/ badLEDFreq0 = true ->
  let r := LEDCheck dtEntries hRMS hMean vEntries simpleLEDCount duration
                    badLEDFreq0 ErrorCount0 EventError0 in
  badLEDFreq r = true /\ EventError r !!! 25%nat = 1 /\
  ErrorCount r !!! 25%nat = ErrorCount0 !!! 25%nat + 1 /\
  (dtEntries <= 0 -> LEDfreq r = 9999%float /\ LEDrms r = 9999%float).
Proof.
  intros HC HE Hbad. cbv zeta.
  assert (Hb : (LEDFrequency dtEntries hRMS hMean badLEDFreq0).2 = true).
  { unfold LEDFrequency. destruct (Z.ltb_spec 0 dtEntries); [|reflexivity].
    destruct Hbad as [H0|H0]; [lia|exact H0]. }
  assert (Hf : dtEntries <= 0 ->
               LEDFrequency dtEntries hRMS hMean badLEDFreq0
               = (9999%float, 9999%float, true)).
  { intros H0. unfold LEDFrequency.
    destruct (Z.ltb_spec 0 dtEntries); [lia|reflexivity]. }
  unfold LEDCheck.
  destruct (LEDFrequency dtEntries hRMS hMean badLEDFreq0)
    as [[rms freq] bad1].
  cbn [snd] in Hb. subst bad1.
  assert (Hs : (ShortRun (1 / freq) vEntries simpleLEDCount duration true).2
               = true).
  { unfold ShortRun.
    destruct (Double.gt (1 / freq) 9 || (vEntries <? 100));
      [destruct (3 <? simpleLEDCount)|]; reflexivity. }
  destruct (ShortRun (1 / freq) vEntries simpleLEDCount duration true)
    as [period bad2].
  cbn [snd] in Hs. subst bad2. unfold LEDError. rewrite orb_true_r.
  cbn [badLEDFreq EventError ErrorCount LEDfreq LEDrms].
  split; [reflexivity|]. split; [apply list_lookup_total_insert_eq; lia|].
  split; [apply list_lookup_total_insert_eq; lia|].
  intros H0. specialize (Hf H0). injection Hf as -> ->. split; reflexivity.
Qed.

Lemma LEDCheck_bad_frequency_witness :
  let r := LEDCheck 0 0%float 0%float 500 0 3600%float false
                    (replicate 29 0) (replicate 29 0) in
  badLEDFreq r = true /\ EventError r !!! 25%nat = 1 /\
  ErrorCount r !!! 25%nat = replicate 29 0 !!! 25%nat + 1 /\
  (0 <= 0 -> LEDfreq r = 9999%float /\ LEDrms r = 9999%float).
Proof.
  apply (LEDCheck_bad_frequency 0 0%float 0%float 500 0 3600%float false
           (replicate 29 0) (replicate 29 0)); [reflexivity|reflexivity|].
  left. lia.
Defined.

(** The totals of the error report: the total adds the counts of all slots
    from 1 on but 10 and 11; the serious count adds those of the serious
    slots, and that of slot 25 when it is positive.  With counts that are not
    negative the serious count does not exceed the total, and it is 0 only
    when every serious slot and slot 25 are. *)
Theorem ErrorTotals_sums (ErrorCount : list Z) :
  length ErrorCount = 29%nat ->
  let '(TotalErrorCount, SeriousErrorCount) := ErrorTotals ErrorCount in
  TotalErrorCount
  = foldr Z.add 0 ((fun i => ErrorCount !!! i) <$> (seq 1 9 ++ seq 12 17)) /\
  SeriousErrorCount
  = foldr Z.add 0 ((fun i => ErrorCount !!! i) <$> SeriousErrors)
    + (if 0 <? ErrorCount !!! 25%nat then ErrorCount !!! 25%nat else 0) /\
  (Forall (fun n => 0 <= n) ErrorCount ->
   0 <= SeriousErrorCount <= TotalErrorCount /\
   (SeriousErrorCount = 0 <->
    forall j, j ∈ SeriousErrors ++ [25%nat] -> ErrorCount !!! j = 0)).
Proof.
  intros Hlen.
  do 30 (destruct ErrorCount as [|? ErrorCount]; try discriminate Hlen).
  unfold ErrorTotals, SeriousErrors, nErrs.
  cbn [Nat.sub seq foldl fst snd Nat.eqb negb andb fmap list_fmap app foldr
       lookup_total list_lookup_total].
  rewrite ?Z.add_0_l.
  split; [lia|]. split; [destruct (0 <? z24); lia|].
  intros Hpos. repeat (apply Forall_cons in Hpos as [? Hpos]).
  split; [destruct (Z.ltb_spec 0 z24); lia|].
  split.
  - destruct (Z.ltb_spec 0 z24); intros Hz j Hj;
      rewrite !elem_of_cons, elem_of_nil in Hj;
      repeat (destruct Hj as [Hj|Hj]); try subst j;
      try contradiction; cbn [lookup_total list_lookup_total]; lia.
  - intros Hall.
    pose proof (Hall 1%nat ltac:(rewrite !elem_of_cons; tauto)) as E1.
    pose proof (Hall 13%nat ltac:(rewrite !elem_of_cons; tauto)) as E13.
    pose proof (Hall 14%nat ltac:(rewrite !elem_of_cons; tauto)) as E14.
    pose proof (Hall 18%nat ltac:(rewrite !elem_of_cons; tauto)) as E18.
    pose proof (Hall 19%nat ltac:(rewrite !elem_of_cons; tauto)) as E19.
    pose proof (Hall 20%nat ltac:(rewrite !elem_of_cons; tauto)) as E20.
    pose proof (Hall 21%nat ltac:(rewrite !elem_of_cons; tauto)) as E21.
    pose proof (Hall 22%nat ltac:(rewrite !elem_of_cons; tauto)) as E22.
    pose proof (Hall 23%nat ltac:(rewrite !elem_of_cons; tauto)) as E23.
    pose proof (Hall 24%nat ltac:(rewrite !elem_of_cons; tauto)) as E24.
    pose proof (Hall 25%nat ltac:(rewrite !elem_of_cons; tauto)) as E25.
    cbn [lookup_total list_lookup_total] in *.
    subst. reflexivity.
Qed.

Lemma ErrorTotals_sums_witness :
  let '(TotalErrorCount, SeriousErrorCount) :=
    ErrorTotals sample_ErrorCount in
  0 <= SeriousErrorCount <= TotalErrorCount.
Proof.
  pose proof (ErrorTotals_sums sample_ErrorCount eq_refl) as H.
  destruct (ErrorTotals sample_ErrorCount) as [t s].
  destruct H as (_ & _ & H). apply H.
  repeat constructor; lia.
Defined.

(** ** The thresholds of a run *)

Lemma thresholds_loop (f : nat -> Z) :
  foldl (fun st i =>
           let thresh := <[i := f i]> (fst st) in
           (thresh, snd st ++ [Z.of_nat i] ++ [thresh !!! i]))
        (9999 :: replicate 31 0, []) (seq 0 32)
  = (f <$> seq 0 32, concat ((fun i => [Z.of_nat i; f i]) <$> seq 0 32)).
Proof. reflexivity. Qed.

Lemma swThresh_of_pairs (f : nat -> Z) :
  swThresh_of (concat ((fun i => [Z.of_nat i; f i]) <$> seq 0 32))
  = f <$> seq 0 32.
Proof. reflexivity. Qed.

Lemma fmap_channels_lookup (f : nat -> Z) (i : nat) :
  (i < 32)%nat -> (f <$> seq 0 32) !!! i = f i.
Proof.
  intros Hi. do 32 (destruct i as [|i]; [reflexivity|]). lia.
Qed.

(** The thresholds survive the hand-over: [VetoThreshFinder] writes 32 pairs
    (channel, threshold), and the array that [ProcessVetoData] builds from
    them is the array of the thresholds found, channel by channel; in a run
    above 45000000 the channels 24 to 31 carry 9999. *)
Theorem thresholds_round_trip (hists : list TH1D) (runNum : Z) :
  let '(thresh, thresholds) := VetoThreshFinder_thresholds hists runNum in
  length thresholds = 64%nat /\
  swThresh_of thresholds = thresh /\
  (forall i : nat, (i < 32)%nat ->
     swThresh_of thresholds !!! i
     = (FindPanelThreshold (hists !!! i) threshVal (Z.of_nat i) runNum).1)
  /\
  (45000000 < runNum ->
   forall i : nat, (24 <= i < 32)%nat ->
     swThresh_of thresholds !!! i = 9999).
Proof.
  pose (f := fun i : nat =>
               (FindPanelThreshold (hists !!! i) threshVal (Z.of_nat i)
                                   runNum).1).
  assert (Heq : VetoThreshFinder_thresholds hists runNum
                = (f <$> seq 0 32,
                   concat ((fun i => [Z.of_nat i; f i]) <$> seq 0 32)))
    by exact (thresholds_loop f).
  rewrite Heq, swThresh_of_pairs.
  assert (Hl : forall i : nat, (i < 32)%nat -> (f <$> seq 0 32) !!! i = f i).
  { intros i Hi. now apply fmap_channels_lookup. }
  split; [reflexivity|]. split; [reflexivity|]. split; [exact Hl|].
  intros Hrun i Hi. rewrite Hl by lia. unfold f, FindPanelThreshold.
  assert (H1 : (45000000 <? runNum) = true) by (apply Z.ltb_lt; lia).
  assert (H2 : (23 <? Z.of_nat i) = true) by (apply Z.ltb_lt; lia).
  now rewrite H1, H2.
Qed.

Lemma thresholds_round_trip_witness :
  let '(thresh, thresholds) :=
    VetoThreshFinder_thresholds (replicate 32 (hLowQDC pedestal_amplitudes))
                                45000001 in
  swThresh_of thresholds !!! 30%nat = 9999.
Proof.
  pose proof (thresholds_round_trip
                (replicate 32 (hLowQDC pedestal_amplitudes)) 45000001) as H.
  destruct (VetoThreshFinder_thresholds
              (replicate 32 (hLowQDC pedestal_amplitudes)) 45000001)
    as [thresh thresholds].
  destruct H as (_ & _ & _ & H). apply H; lia.
Defined.

(** ** Filling the low-range histogram *)

Lemma fill_check_all : forallb fill_check (seqZ 0 4200) = true.
Proof. vm_compute. reflexivity. Qed.

Lemma FindBin_low_range (h : TH1D) (a : Z) :
  low_range_histogram h -> 0 <= a < 4200 ->
  FindBin h (Double.of_Z a) = Z.min (a + 1) (bins + 1).
Proof.
  intros (Hn & Hlo & Hup & _) Ha. pose proof fill_check_all as H.
  rewrite forallb_forall in H.
  specialize (H a ltac:(apply list_elem_of_In, elem_of_seqZ; lia)).
  unfold fill_check in H. apply Z.eqb_eq in H. rewrite <- H.
  unfold FindBin. rewrite Hn, Hlo, Hup. reflexivity.
Qed.

Lemma Fill_content (h : TH1D) (a b : Z) :
  low_range_histogram h -> 0 <= a < 4200 -> 0 <= b ->
  GetBinContent (Fill h (Double.of_Z a)) b
  = GetBinContent h b + (if Z.min (a + 1) (bins + 1) =? b then 1 else 0).
Proof.
  intros Hh Ha Hb. unfold GetBinContent, Fill. cbn [fArray].
  rewrite (FindBin_low_range h a Hh Ha).
  destruct Hh as (_ & _ & _ & Hlen). unfold bins in *.
  destruct (Z.eqb_spec (Z.min (a + 1) (500 + 1)) b) as [<-|Hne].
  - rewrite list_lookup_total_insert_eq by lia. reflexivity.
  - rewrite list_lookup_total_insert_ne by lia. lia.
Qed.

Lemma foldl_Fill_content (l : list Z) (h : TH1D) (b : Z) :
  low_range_histogram h -> Forall (fun a => 0 <= a < 4200) l -> 0 <= b ->
  GetBinContent (foldl (fun h a => Fill h (Double.of_Z a)) h l) b
  = GetBinContent h b
    + Z.of_nat (length (filter (fun a => Z.min (a + 1) (bins + 1) = b) l)).
Proof.
  revert h. induction l as [|a l IH]; intros h Hh Hl Hb.
  - cbn. lia.
  - apply Forall_cons in Hl as [Ha Hl]. cbn [foldl].
    rewrite IH by (try apply Fill_low_range; assumption).
    rewrite (Fill_content h a b Hh Ha Hb).
    destruct (Z.eqb_spec (Z.min (a + 1) (bins + 1)) b) as [Heq|Hne].
    + rewrite filter_cons_True by exact Heq. cbn [length]. lia.
    + rewrite filter_cons_False by exact Hne. lia.
Qed.

Lemma filter_length_iff (l : list Z) (P Q : Z -> Prop)
    `{!forall x, Decision (P x)} `{!forall x, Decision (Q x)} :
  Forall (fun x => P x <-> Q x) l ->
  length (filter P l) = length (filter Q l).
Proof.
  induction 1 as [|x l Hx _ IH]; [reflexivity|].
  cbn beta in Hx. destruct (decide (P x)) as [HP|HP].
  - rewrite !filter_cons_True by tauto. cbn [length]. now rewrite IH.
  - rewrite !filter_cons_False by tauto. exact IH.
Qed.

(** What the calibration histogram of a channel holds, for amplitudes of the
    QDC range 0..4199: the bin [a + 1] counts the events with amplitude [a]
    (for [a] below 500), the overflow cell those with 500 or more, and the
    underflow cell stays empty. *)
Theorem hLowQDC_counts (amplitudes : list Z) :
  Forall (fun a => 0 <= a < 4200) amplitudes ->
  (forall a, 0 <= a < 500 ->
     GetBinContent (hLowQDC amplitudes) (a + 1)
     = Z.of_nat (length (filter (fun x => x = a) amplitudes))) /\
  GetBinContent (hLowQDC amplitudes) 501
  = Z.of_nat (length (filter (fun x => 500 <= x) amplitudes)) /\
  GetBinContent (hLowQDC amplitudes) 0 = 0.
Proof.
  intros Hl.
  assert (H0 : low_range_histogram empty_hLowQDC) by (repeat split).
  assert (Hc : forall b, 0 <= b ->
     GetBinContent (hLowQDC amplitudes) b
     = GetBinContent empty_hLowQDC b
       + Z.of_nat (length (filter (fun a => Z.min (a + 1) (bins + 1) = b)
                                  amplitudes))).
  { intros b Hb. apply foldl_Fill_content; assumption. }
  assert (He : forall b, 0 <= b <= 501 -> GetBinContent empty_hLowQDC b = 0).
  { intros b Hb. unfold GetBinContent, empty_hLowQDC, TH1D_new. cbn [fArray].
    apply lookup_total_replicate_2. unfold bins. lia. }
  pose proof (filter_length_iff amplitudes) as Hf.
  unfold bins in *. split; [|split].
  - intros a Ha. rewrite Hc, He by lia. rewrite Z.add_0_l. f_equal.
    apply Hf. eapply Forall_impl; [exact Hl|].
    intros x Hx. cbn beta in *. split; lia.
  - rewrite Hc, He by lia. rewrite Z.add_0_l. f_equal.
    apply Hf. eapply Forall_impl; [exact Hl|].
    intros x Hx. cbn beta in *. split; lia.
  - rewrite Hc, He by lia.
    rewrite (Hf _ (fun _ => False) _ _); [|].
    + clear. induction amplitudes as [|x l IH]; [reflexivity|].
      now rewrite filter_cons_False by tauto.
    + eapply Forall_impl; [exact Hl|]. intros x Hx. cbn beta in *. split; lia.
Qed.

Lemma hLowQDC_counts_witness :
  GetBinContent (hLowQDC pedestal_amplitudes) (50 + 1)
  = Z.of_nat (length (filter (fun x => x = 50) pedestal_amplitudes)).
Proof.
  apply (hLowQDC_counts pedestal_amplitudes); [|lia].
  repeat constructor; lia.
Defined.

(** ** The first loop over the entries *)

Section Survey_facts.

Variables (vEntries : Z) (duration : float).

Lemma Survey_step_tables (s : Survey.t) (i : Z) (veto : MJVetoEvent) :
  let s' := Survey.step vEntries duration s i veto in
  Survey.prev s' = veto /\ Survey.prevGoodEntry s' = i /\
  length (Survey.BadScalers s') = S (length (Survey.BadScalers s)) /\
  length (Survey.EntryNum s') = S (length (Survey.EntryNum s)) /\
  length (Survey.EntryTime s') = S (length (Survey.EntryTime s)).
Proof.
  cbv zeta. unfold Survey.step.
  destruct (negb (GetBadScaler veto));
    destruct (negb (Survey.foundFirstScaler s) && negb (GetError veto 4));
    destruct (CheckEventErrors_skip veto (Survey.prev s) (Survey.first s)
                (Survey.prevGoodEntry s));
    repeat match goal with
           | |- context [if ?c then _ else _] => destruct c
           end;
    cbn [Survey.prev Survey.prevGoodEntry Survey.BadScalers Survey.EntryNum
         Survey.EntryTime];
    rewrite ?length_app; cbn [length]; repeat split; lia.
Qed.

(** After the first loop the three tables have one row per entry, so that
    [InterpTime] never sees vectors of different sizes; and [prev] and
    [prevGoodEntry] are the last entry read, skipped or not: the classifier
    always compares an entry with the one just before it. *)
Theorem Survey_loop_tables (events : list MJVetoEvent) (s : Survey.t)
    (i : Z) :
  let s' := Survey.loop vEntries duration s i events in
  let n := length events in
  length (Survey.BadScalers s') = (length (Survey.BadScalers s) + n)%nat /\
  length (Survey.EntryNum s') = (length (Survey.EntryNum s) + n)%nat /\
  length (Survey.EntryTime s') = (length (Survey.EntryTime s) + n)%nat /\
  (events <> [] ->
   Some (Survey.prev s') = last events /\
   Survey.prevGoodEntry s' = i + Z.of_nat n - 1).
Proof.
  revert s i. induction events as [|veto rest IH]; intros s i; cbv zeta.
  - cbn [Survey.loop length]. rewrite !Nat.add_0_r.
    split; [reflexivity|]. split; [reflexivity|]. split; [reflexivity|].
    intros Hne. now contradiction Hne.
  - cbn [Survey.loop].
    destruct (Survey_step_tables s i veto) as (Hp & Hg & HB & HN & HT).
    cbv zeta in Hp, Hg, HB, HN, HT.
    specialize (IH (Survey.step vEntries duration s i veto) (i + 1)).
    cbv zeta in IH. destruct IH as (IB & IN & IT & IL).
    rewrite IB, IN, IT, HB, HN, HT. cbn [length].
    split; [lia|]. split; [lia|]. split; [lia|]. intros _.
    destruct rest as [|veto' rest'].
    + cbn [Survey.loop last length]. rewrite Hp, Hg. split; [reflexivity|lia].
    + destruct IL as [IL1 IL2]; [discriminate|].
      split; [exact IL1|]. rewrite IL2. cbn [length]. lia.
Qed.

Lemma Survey_step_counts (s : Survey.t) (i : Z) (veto : MJVetoEvent) :
  let s' := Survey.step vEntries duration s i veto in
  let d := Survey.simpleLEDCount s' - Survey.simpleLEDCount s in
  let k := Survey.skippedEvents s' - Survey.skippedEvents s in
  0 <= d /\ 0 <= k /\ d + k <= 1 /\
  (length (Survey.LEDDeltaT s')
   = length (Survey.LEDDeltaT s) + Z.to_nat d)%nat /\
  Survey.highestMultip s <= Survey.highestMultip s' /\
  Survey.highestMultip s'
  <= Z.max (Survey.highestMultip s) (GetMultip veto) /\
  (d = 1 -> LEDSimpleThreshold < GetMultip veto).
Proof.
  cbv zeta. unfold Survey.step.
  destruct (negb (GetBadScaler veto));
    destruct (negb (Survey.foundFirstScaler s) && negb (GetError veto 4));
    destruct (CheckEventErrors_skip veto (Survey.prev s) (Survey.first s)
                (Survey.prevGoodEntry s));
    try match goal with
        | |- context [if negb ?c && _ && _ && _ then _ else _] =>
            destruct (negb c && Double.gt (GetTimeSBC veto) 0
                      && Double.gt (GetTimeSec veto) 0
                      && negb (GetError veto 4))
        end;
    destruct (Z.ltb_spec (Survey.highestMultip s) (GetMultip veto));
    destruct (Z.ltb_spec LEDSimpleThreshold (GetMultip veto));
    cbn [Survey.simpleLEDCount Survey.skippedEvents Survey.LEDDeltaT
         Survey.highestMultip];
    rewrite ?length_app; cbn [length];
    repeat split; try lia.
Qed.

(** The counters of the first loop.  Over any stretch of entries the
    simple-LED count and the skipped count grow by at most the number of
    entries together; the delta-T histogram receives one value for each
    simple-LED event, so that its number of entries is the simple-LED count;
    and the highest multiplicity never decreases and stays within a bound
    that holds for all the entries. *)
Theorem Survey_loop_counts (events : list MJVetoEvent) (s : Survey.t)
    (i : Z) (M : Z) :
  let s' := Survey.loop vEntries duration s i events in
  let d := Survey.simpleLEDCount s' - Survey.simpleLEDCount s in
  let k := Survey.skippedEvents s' - Survey.skippedEvents s in
  0 <= d /\ 0 <= k /\ d + k <= Z.of_nat (length events) /\
  (length (Survey.LEDDeltaT s')
   = length (Survey.LEDDeltaT s) + Z.to_nat d)%nat /\
  Survey.highestMultip s <= Survey.highestMultip s' /\
  (Survey.highestMultip s <= M ->
   Forall (fun veto => GetMultip veto <= M) events ->
   Survey.highestMultip s' <= M).
Proof.
  revert s i. induction events as [|veto rest IH]; intros s i; cbv zeta.
  - cbn [Survey.loop length]. rewrite !Z.sub_diag, Nat.add_0_r.
    repeat split; try lia.
  - cbn [Survey.loop].
    destruct (Survey_step_counts s i veto)
      as (Hd & Hk & Hdk & HL & Hh1 & Hh2 & _).
    cbv zeta in Hd, Hk, Hdk, HL, Hh1, Hh2.
    specialize (IH (Survey.step vEntries duration s i veto) (i + 1)).
    cbv zeta in IH. destruct IH as (Id & Ik & Idk & IL & Ih1 & Ih2).
    cbn [length]. rewrite IL, HL.
    split; [lia|]. split; [lia|]. split; [lia|]. split; [lia|].
    split; [lia|]. intros HM Hall. apply Forall_cons in Hall as [Hv Hall].
    apply Ih2; [lia|exact Hall].
Qed.

(** One step either keeps [first] or replaces it by the entry just read. *)
Lemma Survey_step_first (s : Survey.t) (i : Z) (veto : MJVetoEvent) :
  let s' := Survey.step vEntries duration s i veto in
  Survey.first s' = Survey.first s \/
  (Survey.first s' = veto /\ Survey.foundFirst s' = true /\
   CheckEventErrors_skip veto (Survey.prev s) (Survey.first s)
                         (Survey.prevGoodEntry s) = false /\
   Double.gt (GetTimeSBC veto) 0 = true /\
   Double.gt (GetTimeSec veto) 0 = true /\
   GetError veto 4 = false /\
   (Survey.foundFirst s = false \/ GetError veto 1 = true)).
Proof.
  cbv zeta. unfold Survey.step.
  destruct (negb (GetBadScaler veto));
    destruct (negb (Survey.foundFirstScaler s) && negb (GetError veto 4));
    destruct (CheckEventErrors_skip veto (Survey.prev s) (Survey.first s)
                (Survey.prevGoodEntry s));
    try (left; reflexivity);
    destruct (Survey.foundFirst s), (GetError veto 1), (GetError veto 4),
      (Double.gt (GetTimeSBC veto) 0), (Double.gt (GetTimeSec veto) 0);
    cbn [andb negb];
    repeat match goal with
           | |- context [if ?c then _ else _] => destruct c
           end;
    cbn [Survey.first Survey.foundFirst];
    try (left; reflexivity); right; repeat split; auto.
Qed.

(** What the first good event is.  After the loop [first] is the one held
    before it or one of the entries read, and in that case an entry with
    both clocks above 0 and its flag 4 clear. *)
Theorem Survey_loop_first (events : list MJVetoEvent) (s : Survey.t)
    (i : Z) :
  let s' := Survey.loop vEntries duration s i events in
  Survey.first s' = Survey.first s \/
  (Survey.first s' ∈ events /\
   Double.gt (GetTimeSBC (Survey.first s')) 0 = true /\
   Double.gt (GetTimeSec (Survey.first s')) 0 = true /\
   GetError (Survey.first s') 4 = false).
Proof.
  revert s i. induction events as [|veto rest IH]; intros s i; cbv zeta.
  - left. reflexivity.
  - cbn [Survey.loop].
    specialize (IH (Survey.step vEntries duration s i veto) (i + 1)).
    cbv zeta in IH.
    destruct IH as [IH|(Hin & H1 & H2 & H4)].
    + rewrite IH.
      destruct (Survey_step_first s i veto)
        as [Hs|(Hs & _ & _ & G1 & G2 & G4 & _)]; cbv zeta in Hs.
      * left. exact Hs.
      * right. rewrite Hs.
        split; [apply list_elem_of_here|]. repeat split; assumption.
    + right. split; [now apply list_elem_of_further|].
      repeat split; assumption.
Qed.

End Survey_facts.

Lemma Survey_loop_tables_witness :
  let s' := Survey.loop 3 30%float Survey.init 0 sample_stream in
  Some (Survey.prev s') = last sample_stream /\
  Survey.prevGoodEntry s' = 0 + Z.of_nat (length sample_stream) - 1.
Proof.
  apply (Survey_loop_tables 3 30%float sample_stream Survey.init 0).
  discriminate.
Defined.

Lemma Survey_loop_counts_witness :
  let s' := Survey.loop 3 30%float Survey.init 0 sample_stream in
  Survey.highestMultip s' <= 32.
Proof.
  apply (Survey_loop_counts 3 30%float sample_stream Survey.init 0 32).
  - vm_compute. discriminate.
  - repeat constructor; vm_compute; discriminate.
Defined.
